(** * Contact manager (backend/main.py): a FastAPI service over one MongoDB
    collection.

    The four handlers of [main.py] are embedded as computations in a state
    and exception monad over the collection.  What the handlers call but do
    not define (bson's [ObjectId], pymongo's [Collection], pydantic's
    validation of [Contact], FastAPI's dispatch) is modelled as far as the
    handlers use it; each such definition says so. *)

From Stdlib Require Import ZArith NArith String Ascii List.
From stdpp Require Import gmap strings list fin_maps pretty.

Local Open Scope Z_scope.
Local Open Scope string_scope.
Local Open Scope list_scope.

(** ** Values and documents *)

(** A scalar of a JSON body or of a BSON document.  [VOid] is bson's
    [ObjectId], twelve bytes read as a number below [2^96].  [VShortOid] is
    an [ObjectId] of fewer than twelve bytes: [ObjectId(str)] makes one from
    a string with white space in it (see [bson.parse]); the store generates
    none. *)
Inductive value :=
  | VNull
  | VBool (b : bool)
  | VInt (z : Z)
  | VStr (s : string)
  | VOid (o : N)
  | VShortOid (bytes : list N).

#[global] Instance value_eq_dec : EqDecision value.
Proof. solve_decision. Defined.

(** A Python [dict] with string keys: a request body, the result of
    [contact.dict()], a stored document. *)
Abbreviation dict := (gmap string value).

(** ** bson.ObjectId *)

Module bson.

Definition hex_value (c : ascii) : option N :=
  let n := N_of_ascii c in
  if (48 <=? n)%N && (n <=? 57)%N then Some (n - 48)%N
  else if (97 <=? n)%N && (n <=? 102)%N then Some (n - 87)%N
  else if (65 <=? n)%N && (n <=? 70)%N then Some (n - 55)%N
  else None.

(** [bytes.fromhex], most significant digit first. *)
Fixpoint fromhex (acc : N) (s : string) : option N :=
  match s with
  | EmptyString => Some acc
  | String c s' =>
      match hex_value c with
      | Some d => fromhex (16 * acc + d)%N s'
      | None => None
      end
  end.

(** The twelve bytes that twenty-four hexadecimal digits spell, as a number;
    [None] for every other string. *)
Definition from_str (s : string) : option N :=
  if (String.length s =? 24)%nat then fromhex 0%N s else None.

(** The characters [bytes.fromhex] skips: ASCII white space. *)
Definition is_space (c : ascii) : bool :=
  let n := N_of_ascii c in
  ((9 <=? n)%N && (n <=? 13)%N) || (n =? 32)%N.

(** [bytes.fromhex]: pairs of hexadecimal digits, with white space allowed
    before a pair and at the end, not inside a pair. *)
Fixpoint fromhex_bytes (s : string) : option (list N) :=
  match s with
  | EmptyString => Some []
  | String c s' =>
      if is_space c then fromhex_bytes s'
      else
        match hex_value c with
        | None => None
        | Some hi =>
            match s' with
            | EmptyString => None
            | String c' s'' =>
                match hex_value c' with
                | Some lo => cons (16 * hi + lo)%N <$> fromhex_bytes s''
                | None => None
                end
            end
        end
  end.

(** [ObjectId(oid)] on a [str]: the string must have twenty-four characters
    and [bytes.fromhex] must take it, or [InvalidId] is raised ([None]
    here).  Twenty-four digits give the twelve-byte id that [from_str]
    reads.  A string with white space among its digit pairs is taken too,
    and gives an id of fewer than twelve bytes: the length of the result is
    not checked. *)
Definition parse (s : string) : option value :=
  match from_str s with
  | Some o => Some (VOid o)
  | None =>
      if (String.length s =? 24)%nat then VShortOid <$> fromhex_bytes s else None
  end.

Definition hex_digit (d : N) : ascii :=
  if (d <? 10)%N then ascii_of_N (48 + d) else ascii_of_N (87 + d).

Fixpoint hexlify (digits : nat) (o : N) : string :=
  match digits with
  | O => EmptyString
  | S k => String (hex_digit ((o / 16 ^ N.of_nat k) mod 16)%N) (hexlify k o)
  end.

(** [str(oid)]: the twelve bytes in lower-case hexadecimal. *)
Definition to_str (o : N) : string := hexlify 24 o.

(** [str(oid)] of a short id: two digits for each byte it has. *)
Definition to_str_short (bytes : list N) : string :=
  foldr (λ b s, String (hex_digit (b / 16)) (String (hex_digit (b mod 16)) s))
    EmptyString bytes.

(** Bytes as a number, most significant first. *)
Definition of_bytes (bytes : list N) : N :=
  foldl (λ acc b, 256 * acc + b)%N 0%N bytes.

(** A fresh [ObjectId()] keeps twelve bytes of what the generator gives. *)
Definition wrap (n : N) : N := (n mod 2 ^ 96)%N.

End bson.

(** [str(x)] of a value; only the [ObjectId] case is reached by the
    handlers. *)
Definition py_str (v : value) : string :=
  match v with
  | VNull => "None"
  | VBool true => "True"
  | VBool false => "False"
  | VInt z => pretty z
  | VStr s => s
  | VOid o => bson.to_str o
  | VShortOid bytes => bson.to_str_short bytes
  end.

(** ** Exceptions *)

(** The exceptions that can arise inside a handler.  Every one of them is a
    subclass of Python's [Exception], FastAPI's [HTTPException] included. *)
Inductive exn :=
  | HTTPException (status_code : Z) (detail : string)
  | InvalidId
  | ServerSelectionTimeoutError
  | DuplicateKeyError
  | WriteError
  | OverflowError
  | OperationFailure.

(** ** The collection *)

(** [db.contacts] as the process sees it: the stored documents in natural
    order, whether the server can be reached, and the driver's source of
    fresh [ObjectId]s together with how many it has handed out. *)
Record Mongo := {
  docs : list dict;
  connected : bool;
  idgen : nat -> N;
  issued : nat
}.

Definition with_docs (l : list dict) (m : Mongo) : Mongo :=
  {| docs := l; connected := connected m; idgen := idgen m; issued := issued m |}.

Definition tick (m : Mongo) : Mongo :=
  {| docs := docs m; connected := connected m; idgen := idgen m;
     issued := S (issued m) |}.

(** The [ObjectId()] the driver generates next. *)
Definition next_oid (m : Mongo) : N := bson.wrap (idgen m (issued m)).

(** ** A state and exception monad *)

Definition M (A : Type) : Type := Mongo -> (exn + A) * Mongo.

#[global] Instance M_ret : MRet M := fun A (a : A) m => (inr a, m).

#[global] Instance M_bind : MBind M := fun A B (f : A -> M B) (c : M A) m =>
  match c m with
  | (inr a, m') => f a m'
  | (inl e, m') => (inl e, m')
  end.

Definition raise {A} (e : exn) : M A := fun m => (inl e, m).

(** [try: body except Exception as e: handler e].  Each constructor of
    [exn] is an instance of [Exception], so the clause catches all of
    them. *)
Definition try_except {A} (body : M A) (handler : exn -> M A) : M A := fun m =>
  match body m with
  | (inr a, m') => (inr a, m')
  | (inl e, m') => handler e m'
  end.

(** [ObjectId(oid)] inside a handler. *)
Definition ObjectId (oid : string) : M value := fun m =>
  match bson.parse oid with
  | Some v => (inr v, m)
  | None => (inl InvalidId, m)
  end.

(** ** The driver and an [ObjectId] that is too short *)

(** A filter goes to the server as BSON, in which an [ObjectId] takes twelve
    bytes.  What goes for one of fewer bytes bson does not define: pymongo's
    C encoder writes twelve bytes from where the bytes of the id start, its
    Python encoder writes the bytes the id has and the server is left with a
    document it refuses.  [short_oid] says, for the bytes of a short id,
    which twelve-byte id the server is asked for, or [None] when the request
    fails. *)
Class Driver := { short_oid : list N -> option N }.

(** The server refuses every short id. *)
Definition python_encoder : Driver := {| short_oid _ := None |}.

(** A short id is filled up to twelve bytes with zero bytes. *)
Definition zero_padding : Driver :=
  {| short_oid bytes :=
       Some (bson.of_bytes (bytes ++ replicate (12 - length bytes) 0%N)) |}.

(** ** pymongo.collection.Collection, as the handlers use it *)

Record InsertOneResult := { inserted_id : value }.
Record UpdateResult := { matched_count : Z }.
Record DeleteResult := { deleted_count : Z }.

Module collection.

(** A query of equalities, such as [{"_id": oid}], selects the documents
    that hold each of its pairs. *)
Definition matches (filter d : dict) : Prop := filter ⊆ d.

#[global] Instance matches_dec filter d : Decision (matches filter d).
Proof. unfold matches. apply _. Defined.

(** BSON has no integer wider than eight bytes; encoding one raises
    [OverflowError]. *)
Definition int64 (v : value) : bool :=
  match v with
  | VInt z => (- 2 ^ 63 <=? z)%Z && (z <? 2 ^ 63)%Z
  | _ => true
  end.

Definition encodable (d : dict) : bool :=
  bool_decide (map_Forall (λ _ v, int64 v = true) d).

Definition ids (l : list dict) : list (option value) := (.!! "_id") <$> l.

(** A value of a filter as the server gets it, [None] when it gets none. *)
Definition sent {D : Driver} (v : value) : option value :=
  match v with
  | VShortOid bytes => VOid <$> short_oid bytes
  | _ => Some v
  end.

(** A filter as the server gets it.  Only filters go through this: the
    documents the handlers write are made by [contact.dict()] and hold no
    [ObjectId]. *)
Definition encode {D : Driver} (filter : dict) : option dict :=
  if bool_decide (map_Forall (λ _ v, is_Some (sent v)) filter)
  then Some ((λ v, default v (sent v)) <$> filter)
  else None.

(** [insert_one(document)]: the driver adds a fresh ["_id"] to a document
    that has none; the server refuses an ["_id"] it already holds. *)
Definition insert_one (document : dict) : M InsertOneResult := fun m =>
  let '(document, m) :=
    match document !! "_id" with
    | Some _ => (document, m)
    | None => (<["_id" := VOid (next_oid m)]> document, tick m)
    end in
  if negb (connected m) then (inl ServerSelectionTimeoutError, m)
  else if negb (encodable document) then (inl OverflowError, m)
  else if bool_decide (document !! "_id" ∈ ids (docs m))
       then (inl DuplicateKeyError, m)
  else (inr {| inserted_id := default VNull (document !! "_id") |},
        with_docs (docs m ++ [document]) m).

(** [list(find())]: every document, in natural order. *)
Definition find : M (list dict) := fun m =>
  if negb (connected m) then (inl ServerSelectionTimeoutError, m)
  else (inr (docs m), m).

(** [update_one(filter, {"$set": fields})]: the first matching document
    gets the given fields, no upsert; ["_id"] is immutable. *)
Definition update_one {D : Driver} (filter fields : dict) : M UpdateResult := fun m =>
  if negb (connected m) then (inl ServerSelectionTimeoutError, m)
  else if negb (encodable filter && encodable fields) then (inl OverflowError, m)
  else match encode filter with
       | None => (inl OperationFailure, m)
       | Some filter =>
           match list_find (matches filter) (docs m) with
           | None => (inr {| matched_count := 0 |}, m)
           | Some (i, d) =>
               let d' := fields ∪ d in
               if bool_decide (d' !! "_id" = d !! "_id")
               then (inr {| matched_count := 1 |},
                     with_docs (<[i := d']> (docs m)) m)
               else (inl WriteError, m)
           end
       end.

(** [delete_one(filter)]: the first matching document is removed. *)
Definition delete_one {D : Driver} (filter : dict) : M DeleteResult := fun m =>
  if negb (connected m) then (inl ServerSelectionTimeoutError, m)
  else if negb (encodable filter) then (inl OverflowError, m)
  else match encode filter with
       | None => (inl OperationFailure, m)
       | Some filter =>
           match list_find (matches filter) (docs m) with
           | None => (inr {| deleted_count := 0 |}, m)
           | Some (i, _) =>
               (inr {| deleted_count := 1 |}, with_docs (delete i (docs m)) m)
           end
       end.

End collection.

(** ** main.py *)

(** [class Contact(BaseModel)] *)
Record Contact := {
  name : string;
  age : Z;
  mobile : string;
  email : string
}.

(** [contact.dict()] *)
Definition Contact_dict (contact : Contact) : dict :=
  {[ "name" := VStr (name contact); "age" := VInt (age contact);
     "mobile" := VStr (mobile contact); "email" := VStr (email contact) ]}.

(** The handlers.  Calls to [logger] have no effect on the collection or on
    the result and are left out. *)

Definition create_contact (contact : Contact) : M dict :=
  try_except
    (let contact_dict := Contact_dict contact in
     result ← collection.insert_one contact_dict;
     mret {[ "id" := VStr (py_str (inserted_id result));
             "message" := VStr "Contact created successfully" ]})
    (λ e, raise (HTTPException 500 "Error creating contact")).

Definition get_contacts : M (list dict) :=
  try_except
    (contacts ← collection.find;
     mret contacts)
    (λ e, raise (HTTPException 500 "Error retrieving contacts")).

Definition update_contact {D : Driver} (contact_id : string) (contact : Contact)
  : M dict :=
  try_except
    (let updated_contact := Contact_dict contact in
     oid ← ObjectId contact_id;
     result ← collection.update_one {[ "_id" := oid ]} updated_contact;
     if (matched_count result =? 0)%Z
     then raise (HTTPException 404 "Contact not found")
     else mret {[ "message" := VStr "Contact updated successfully" ]})
    (λ e, raise (HTTPException 500 "Error updating contact")).

Definition delete_contact {D : Driver} (contact_id : string) : M dict :=
  try_except
    (oid ← ObjectId contact_id;
     result ← collection.delete_one {[ "_id" := oid ]};
     if (deleted_count result =? 0)%Z
     then raise (HTTPException 404 "Contact not found")
     else mret {[ "message" := VStr "Contact deleted successfully" ]})
    (λ e, raise (HTTPException 500 "Error deleting contact")).

(** ** pydantic and FastAPI, as [main.py] uses them *)

(** How pydantic reads a JSON value into a field annotated [str] or [int].
    A value of the annotated type is taken as it is, and [null] is refused:
    neither field is [Optional].  Which other values are converted
    (pydantic's lax mode) differs between releases and is left open. *)
Class Pydantic := {
  str_validator : value -> option string;
  int_validator : value -> option Z;
  str_validator_str : forall s, str_validator (VStr s) = Some s;
  int_validator_int : forall z, int_validator (VInt z) = Some z;
  str_validator_null : str_validator VNull = None;
  int_validator_null : int_validator VNull = None
}.

(** The policy that converts nothing. *)
Definition strict : Pydantic := {|
  str_validator v := match v with VStr s => Some s | _ => None end;
  int_validator v := match v with VInt z => Some z | _ => None end;
  str_validator_str s := eq_refl;
  int_validator_int z := eq_refl;
  str_validator_null := eq_refl;
  int_validator_null := eq_refl
|}.

(** A string of decimal digits as the integer it spells. *)
Fixpoint digits (acc : Z) (s : string) : option Z :=
  match s with
  | EmptyString => Some acc
  | String c s' =>
      let n := Z.of_N (N_of_ascii c) in
      if (48 <=? n)%Z && (n <=? 57)%Z then digits (10 * acc + (n - 48)) s'
      else None
  end.



(** The fields [Contact] declares, in order. *)
Definition Contact_fields : list string := ["name"; "age"; "mobile"; "email"].

(** What a response carries. *)
Inductive content :=
  | JSONObject (d : dict)
  | JSONArray (l : list dict)
  | ErrorLocs (locs : list string)
  | PlainText (s : string).

Record Response := { status : Z; body : content }.

(** How FastAPI renders [HTTPException(status_code, detail)]. *)
Definition http_error (status_code : Z) (detail : string) : Response :=
  {| status := status_code; body := JSONObject {[ "detail" := VStr detail ]} |}.

Inductive Request :=
  | POST_contacts (payload : dict)
  | GET_contacts
  | PUT_contacts (contact_id : string) (payload : dict)
  | DELETE_contacts (contact_id : string).

(** ** Routing *)

Fixpoint has_slash (s : string) : bool :=
  match s with
  | EmptyString => false
  | String c s' => Ascii.eqb c "/" || has_slash s'
  end.

(** [path.rstrip("/")] on the part of the path after [/contacts/]. *)
Fixpoint rstrip_slash (s : string) : string :=
  match s with
  | EmptyString => EmptyString
  | String c s' =>
      match rstrip_slash s' with
      | EmptyString => if Ascii.eqb c "/" then EmptyString else String c EmptyString
      | r => String c r
      end
  end.

(** What can stand for [{contact_id}] in [/contacts/{contact_id}]: a segment
    that is not empty and has no slash. *)
Definition path_param (contact_id : string) : bool :=
  negb (bool_decide (contact_id = "")) && negb (has_slash contact_id).

(** A request for [/contacts/] followed by [contact_id], with a method the
    route [/contacts/{contact_id}] has.  With nothing after [/contacts/] the
    path is that of the other route, which has not this method: 405.  With a
    slash the path is no route's: 404, unless dropping the slashes at its
    end makes it one, and then the client is redirected there: 307. *)
Definition route (contact_id : string) (endpoint : Mongo -> Response * Mongo)
  : Mongo -> Response * Mongo :=
  if bool_decide (contact_id = "")
  then λ m, (http_error 405 "Method Not Allowed", m)
  else if negb (has_slash contact_id) then endpoint
  else if path_param (rstrip_slash contact_id)
       then λ m, ({| status := 307; body := PlainText "" |}, m)
       else λ m, (http_error 404 "Not Found", m).

Section FastAPI.
Context {P : Pydantic} {D : Driver}.

(** One field: a missing key and a rejected value are both reported under
    the field's name. *)
Definition field {A} (validator : value -> option A) (k : string) (data : dict)
  : list string + A :=
  match data !! k with
  | Some v => match validator v with Some a => inr a | None => inl [k] end
  | None => inl [k]
  end.

Definition locs {A} (r : list string + A) : list string :=
  match r with inl l => l | inr _ => [] end.

(** Building a [Contact] from a [dict]: every declared field is read, keys
    that are not declared are ignored, all failures are reported together. *)
Definition Contact_validate (data : dict) : list string + Contact :=
  let n := field str_validator "name" data in
  let a := field int_validator "age" data in
  let mo := field str_validator "mobile" data in
  let e := field str_validator "email" data in
  match n, a, mo, e with
  | inr n, inr a, inr mo, inr e =>
      inr {| name := n; age := a; mobile := mo; email := e |}
  | _, _, _, _ => inl (locs n ++ locs a ++ locs mo ++ locs e)%list
  end.

(** Whether a payload has the declared field [k] with a value its annotation
    takes: [int] for ["age"], [str] for the others. *)
Definition field_ok (k : string) (data : dict) : bool :=
  match data !! k with
  | Some v =>
      if String.eqb k "age" then bool_decide (is_Some (int_validator v))
      else bool_decide (is_Some (str_validator v))
  | None => false
  end.

(** [response_model=List[Contact]]: what the handler returns is read into
    [Contact]s and these are what is sent. *)
Definition List_Contact (contacts : list dict) : option content :=
  JSONArray <$>
    mapM (λ d, match Contact_validate d with
               | inr c => Some (Contact_dict c)
               | inl _ => None
               end) contacts.

(** Running a handler for a request: a returned value is serialized into a
    200 response, an [HTTPException] becomes a response with its status
    and detail, anything else is the server's own 500. *)
Definition respond {A} (serialize : A -> option content) (handler : M A)
  : Mongo -> Response * Mongo := fun m =>
  match handler m with
  | (inr a, m') =>
      match serialize a with
      | Some c => ({| status := 200; body := c |}, m')
      | None => ({| status := 500; body := PlainText "Internal Server Error" |}, m')
      end
  | (inl (HTTPException s detail), m') => (http_error s detail, m')
  | (inl _, m') =>
      ({| status := 500; body := PlainText "Internal Server Error" |}, m')
  end.

Definition unprocessable (l : list string) : Mongo -> Response * Mongo :=
  fun m => ({| status := 422; body := ErrorLocs l |}, m).

(** The routes of [app].  The path is routed first; a body parameter is
    validated before the handler is entered. *)
Definition app (r : Request) : Mongo -> Response * Mongo :=
  match r with
  | POST_contacts payload =>
      match Contact_validate payload with
      | inr contact => respond (λ d, Some (JSONObject d)) (create_contact contact)
      | inl l => unprocessable l
      end
  | GET_contacts => respond List_Contact get_contacts
  | PUT_contacts contact_id payload =>
      route contact_id
        match Contact_validate payload with
        | inr contact =>
            respond (λ d, Some (JSONObject d)) (update_contact contact_id contact)
        | inl l => unprocessable l
        end
  | DELETE_contacts contact_id =>
      route contact_id
        (respond (λ d, Some (JSONObject d)) (delete_contact contact_id))
  end.

End FastAPI.

(** ** Names used in the statements *)

(** The document [create_contact] hands to the server. *)
Definition stored (contact : Contact) (m : Mongo) : dict :=
  <["_id" := VOid (next_oid m)]> (Contact_dict contact).

Definition created (m : Mongo) : dict :=
  {[ "id" := VStr (bson.to_str (next_oid m));
     "message" := VStr "Contact created successfully" ]}.

(** The first stored document with the given ["_id"]. *)
Definition lookup_id (o : N) (m : Mongo) : option (nat * dict) :=
  list_find (collection.matches {[ "_id" := VOid o ]}) (docs m).

(** A stored document carries the fields of [contact]. *)
Definition holds (contact : Contact) (d : dict) : Prop :=
  collection.matches (Contact_dict contact) d.

#[global] Instance holds_dec contact d : Decision (holds contact d).
Proof. unfold holds. apply _. Defined.

(** The twelve-byte id the store is asked for with this path id, when the
    handler gets as far as asking: the id [ObjectId] makes of it, or what the
    driver sends for it if that is too short. *)
Definition queried {D : Driver} (contact_id : string) : option N :=
  match bson.parse contact_id with
  | Some (VOid o) => Some o
  | Some (VShortOid bytes) => short_oid bytes
  | _ => None
  end.

(** The document is the one the path id names. *)
Definition has_id {D : Driver} (contact_id : string) (d : dict) : Prop :=
  exists o, queried contact_id = Some o /\ d !! "_id" = Some (VOid o).

(** Creating a contact and then listing, as one step: what [get_contacts]
    returns after [create_contact]. *)
Definition create_then_list (contact : Contact) (m : Mongo) : exn + list dict :=
  fst (get_contacts (snd (create_contact contact m))).

(** The create-then-list property as the specification words it: the listing
    has exactly one document with the submitted fields, and that document
    carries a generated id whose text is not empty. *)
Definition exactly_one_listed (contact : Contact) (m : Mongo) : Prop :=
  exists l d o,
    create_then_list contact m = inr l
    /\ filter (holds contact) l = [d]
    /\ d !! "_id" = Some (VOid o)
    /\ bson.to_str o <> "".

(** MongoDB's invariant on a collection: every document has an ["_id"] and
    no two documents share one. *)
Definition unique_ids (m : Mongo) : Prop :=
  NoDup (collection.ids (docs m)) /\ Forall (λ d : dict, is_Some (d !! "_id")) (docs m).

(** ** Sample inputs *)

Definition no_contacts : Mongo :=
  {| docs := []; connected := true; idgen := N.of_nat; issued := 0 |}.

Definition ann : Contact :=
  {| name := "Ann"; age := 30; mobile := "555-0100"; email := "ann@x.com" |}.

Definition ann_payload : dict :=
  {[ "name" := VStr "Ann"; "age" := VInt 30; "mobile" := VStr "555-0100";
     "email" := VStr "ann@x.com" ]}.

(** Keys a client may add to a payload. *)
Definition client_extras : dict :=
  {[ "id" := VStr "chosen-by-client"; "_id" := VInt 7; "admin" := VBool true ]}.

(** The collection after Ann has been created once. *)
Definition one_contact : Mongo := snd (create_contact ann no_contacts).

(** The collection after Ann has been created twice. *)
Definition two_contacts : Mongo := snd (create_contact ann one_contact).

#[global] Instance has_id_dec {D : Driver} contact_id d :
  Decision (has_id contact_id d).
Proof.
  unfold has_id. destruct (queried contact_id) as [o|].
  - destruct (decide (d !! "_id" = Some (VOid o))) as [Hd | Hd].
    + left. by exists o.
    + right. intros (o' & [= <-] & Hd'). by apply Hd.
  - right. by intros (o' & [=] & _).
Defined.

(** What [update_one] makes of a document it matches. *)
Definition set_fields (contact : Contact) (d : dict) : dict :=
  Contact_dict contact ∪ d.

(** ** Start-up (the module level of main.py) *)

(** The two exceptions the module raises while it is imported. *)
Inductive startup_error :=
  | ValueError (msg : string)
  | ConnectionError (msg : string).

(** [load_dotenv()]: the variables of the .env file are added to the
    environment; a variable the environment already has is kept. *)
Definition load_dotenv (dotenv environ : gmap string string) : gmap string string :=
  environ ∪ dotenv.

(** [not mongo_uri]: true of [None] and of the empty string. *)
Definition not_ (mongo_uri : option string) : bool :=
  match mongo_uri with
  | None => true
  | Some s => bool_decide (s = "")
  end.

(** [MONGO_URI] is empty in the environment, or absent from it and absent or
    empty in the .env file. *)
Definition mongo_uri_unset (dotenv environ : gmap string string) : Prop :=
  environ !! "MONGO_URI" = Some ""
  \/ (environ !! "MONGO_URI" = None
      /\ (dotenv !! "MONGO_URI" = None \/ dotenv !! "MONGO_URI" = Some "")).

Section Startup.
(** [MongoClient(mongo_uri)] either raises, with a message, or gives a
    client; which uris it refuses is pymongo's business. *)
Context {client : Type} (MongoClient : string -> string + client).

(** Lines 15 to 33: load the .env file, read [MONGO_URI], refuse to go on
    without it, build the client and turn any failure to do so into a
    [ConnectionError]. *)
Definition startup (dotenv environ : gmap string string) : startup_error + client :=
  let environ := load_dotenv dotenv environ in
  let mongo_uri := environ !! "MONGO_URI" in
  if not_ mongo_uri
  then inl (ValueError "MongoDB URI is not set in the .env file")
  else match MongoClient (default "" mongo_uri) with
       | inr c => inr c
       | inl e => inl (ConnectionError ("Could not connect to MongoDB: " +:+ e))
       end.

End Startup.

(** ** More sample inputs *)

Definition bob : Contact :=
  {| name := "Bob"; age := 41; mobile := "555-0199"; email := "bob@x.com" |}.

(** A contact whose age does not fit eight bytes. *)
Definition methuselah : Contact :=
  {| name := "M"; age := 2 ^ 63; mobile := "0"; email := "m@x.com" |}.

(** [two_contacts] with the server out of reach. *)
Definition unreachable : Mongo :=
  {| docs := docs two_contacts; connected := false; idgen := N.of_nat; issued := 2 |}.

(** A collection in which another client has left a document without
    ["email"]. *)
Definition foreign_doc : Mongo :=
  with_docs (docs one_contact ++ [{[ "_id" := VOid 9; "name" := VStr "Zed" ]}])
    one_contact.

(** The outcome of a handler is a value, or the handler's own
    [HTTPException(500, detail)] with the documents as they were in [m]. *)
Definition returns_or_500 {A} (detail : string) (m : Mongo)
    (outcome : (exn + A) * Mongo) : Prop :=
  match outcome with
  | (inr _, _) => True
  | (inl e, m') => e = HTTPException 500 detail /\ docs m' = docs m
  end.

(** ** The claims on validation and on malformed ids, as worded *)



(** An update or a delete whose path id [ObjectId] refuses is answered with
    500. *)
Definition refused_id_is_500 {P : Pydantic} {D : Driver} (r : Request) (m : Mongo)
  : Prop :=
  match r with
  | PUT_contacts contact_id _ | DELETE_contacts contact_id =>
      bson.parse contact_id = None -> status (fst (app r m)) = 500
  | _ => True
  end.

(** * Properties *)

(** ** Documents and queries *)

Section Filters.
Context {D : Driver}.

Lemma Contact_dict_lookup (contact : Contact) (k : string) :
  Contact_dict contact !! k =
    if decide (k = "name") then Some (VStr (name contact))
    else if decide (k = "age") then Some (VInt (age contact))
    else if decide (k = "mobile") then Some (VStr (mobile contact))
    else if decide (k = "email") then Some (VStr (email contact))
    else None.
Proof.
  unfold Contact_dict.
  repeat (case_decide; [subst; by simplify_map_eq |]).
  by simplify_map_eq.
Qed.

Lemma Contact_dict_no_id (contact : Contact) : Contact_dict contact !! "_id" = None.
Proof. by rewrite Contact_dict_lookup. Qed.

Lemma Contact_dict_dom (contact : Contact) :
  dom (Contact_dict contact) = list_to_set Contact_fields.
Proof.
  unfold Contact_dict, Contact_fields.
  rewrite !dom_insert_L, ?dom_singleton_L, ?dom_empty_L. set_solver.
Qed.

Lemma matches_id (o : N) (d : dict) :
  collection.matches {[ "_id" := VOid o ]} d <-> d !! "_id" = Some (VOid o).
Proof. unfold collection.matches. apply map_singleton_subseteq_l. Qed.

Lemma id_filter_encodable (o : N) : collection.encodable {[ "_id" := VOid o ]} = true.
Proof.
  unfold collection.encodable. apply bool_decide_eq_true.
  by apply map_Forall_singleton.
Qed.

Lemma short_id_filter_encodable (bytes : list N) :
  collection.encodable {[ "_id" := VShortOid bytes ]} = true.
Proof.
  unfold collection.encodable. apply bool_decide_eq_true.
  by apply map_Forall_singleton.
Qed.

(** The filter of a handler reaches the server with the id the driver sends
    for it. *)
Lemma encode_id_filter (v : value) :
  collection.encode {[ "_id" := v ]}
  = (λ v' : value, {[ "_id" := v' ]}) <$> collection.sent v.
Proof.
  unfold collection.encode. destruct (collection.sent v) as [v'|] eqn:Hv.
  - rewrite bool_decide_eq_true_2.
    + cbn. by rewrite map_fmap_singleton, Hv.
    + apply map_Forall_singleton. rewrite Hv. by eexists.
  - rewrite bool_decide_eq_false_2; [done |].
    intros Hall. apply map_Forall_singleton in Hall.
    rewrite Hv in Hall. by destruct Hall.
Qed.

(** What [ObjectId] makes of a string: a twelve-byte id exactly when the
    string is twenty-four digits, a short one otherwise. *)
Lemma parse_Some (s : string) (v : value) :
  bson.parse s = Some v ->
  (exists o, v = VOid o /\ bson.from_str s = Some o)
  \/ (exists bytes, v = VShortOid bytes /\ bson.from_str s = None).
Proof.
  unfold bson.parse. destruct (bson.from_str s) as [o|].
  - intros [= <-]. left. by exists o.
  - destruct (String.length s =? 24)%nat; [| done].
    destruct (bson.fromhex_bytes s) as [bytes|]; [| done].
    intros [= <-]. right. by exists bytes.
Qed.

Lemma parse_from_str (s : string) (o : N) :
  bson.from_str s = Some o -> bson.parse s = Some (VOid o).
Proof. unfold bson.parse. by intros ->. Qed.

Lemma queried_from_str (s : string) (o : N) :
  bson.from_str s = Some o -> queried s = Some o.
Proof. intros Ho. unfold queried. by rewrite (parse_from_str s o Ho). Qed.

Lemma queried_refused (s : string) : bson.parse s = None -> queried s = None.
Proof. unfold queried. by intros ->. Qed.

(** The id the store is asked for is what the driver sends for the id
    [ObjectId] has made. *)
Lemma queried_sent (s : string) (v : value) :
  bson.parse s = Some v -> VOid <$> queried s = collection.sent v.
Proof.
  intros Hp. unfold queried. rewrite Hp.
  by apply parse_Some in Hp as [(o & -> & _) | (bytes & -> & _)].
Qed.

Lemma parsed_filter_encodable (s : string) (v : value) :
  bson.parse s = Some v -> collection.encodable {[ "_id" := v ]} = true.
Proof.
  intros [(o & -> & _) | (bytes & -> & _)]%parse_Some;
    [apply id_filter_encodable | apply short_id_filter_encodable].
Qed.

End Filters.

(** ** What each handler computes *)

Section Handlers.
Context {D : Driver}.

Lemma create_contact_eq (contact : Contact) (m : Mongo) :
  create_contact contact m =
    if negb (connected m)
       || negb (collection.encodable (stored contact m))
       || bool_decide (Some (VOid (next_oid m)) ∈ collection.ids (docs m))
    then (inl (HTTPException 500 "Error creating contact"), tick m)
    else (inr (created m), with_docs (docs m ++ [stored contact m]) (tick m)).
Proof.
  unfold create_contact, try_except, mbind, M_bind, collection.insert_one, stored.
  rewrite Contact_dict_no_id. cbn [connected docs tick].
  rewrite lookup_insert_eq.
  destruct (connected m); [| done]. cbn [negb orb].
  destruct (collection.encodable _); [| done]. cbn [negb orb].
  by case_bool_decide.
Qed.

Lemma get_contacts_eq (m : Mongo) :
  get_contacts m =
    if connected m then (inr (docs m), m)
    else (inl (HTTPException 500 "Error retrieving contacts"), m).
Proof.
  unfold get_contacts, try_except, mbind, M_bind, collection.find.
  by destruct (connected m).
Qed.

Lemma update_contact_eq (contact_id : string) (contact : Contact) (m : Mongo) :
  update_contact contact_id contact m =
    match queried contact_id with
    | Some o =>
        if connected m && collection.encodable (Contact_dict contact) then
          match lookup_id o m with
          | Some (i, d) =>
              (inr {[ "message" := VStr "Contact updated successfully" ]},
               with_docs (<[i := Contact_dict contact ∪ d]> (docs m)) m)
          | None => (inl (HTTPException 500 "Error updating contact"), m)
          end
        else (inl (HTTPException 500 "Error updating contact"), m)
    | None => (inl (HTTPException 500 "Error updating contact"), m)
    end.
Proof.
  unfold update_contact, try_except, mbind, M_bind, ObjectId, collection.update_one,
    lookup_id.
  destruct (bson.parse contact_id) as [v|] eqn:Hp;
    [| by rewrite queried_refused].
  rewrite (parsed_filter_encodable _ _ Hp), encode_id_filter.
  rewrite <- (queried_sent _ _ Hp).
  destruct (queried contact_id) as [o|]; cbn [fmap option_fmap option_map].
  - destruct (connected m); [| done]. cbn [negb andb].
    destruct (collection.encodable _); [| done]. cbn [negb].
    destruct (list_find _ _) as [[i d]|]; [| done].
    rewrite bool_decide_eq_true_2; [done |].
    by rewrite lookup_union_r by apply Contact_dict_no_id.
  - destruct (connected m); [| done]. cbn [negb andb].
    by destruct (collection.encodable _).
Qed.

Lemma delete_contact_eq (contact_id : string) (m : Mongo) :
  delete_contact contact_id m =
    match queried contact_id with
    | Some o =>
        if connected m then
          match lookup_id o m with
          | Some (i, _) =>
              (inr {[ "message" := VStr "Contact deleted successfully" ]},
               with_docs (delete i (docs m)) m)
          | None => (inl (HTTPException 500 "Error deleting contact"), m)
          end
        else (inl (HTTPException 500 "Error deleting contact"), m)
    | None => (inl (HTTPException 500 "Error deleting contact"), m)
    end.
Proof.
  unfold delete_contact, try_except, mbind, M_bind, ObjectId, collection.delete_one,
    lookup_id.
  destruct (bson.parse contact_id) as [v|] eqn:Hp;
    [| by rewrite queried_refused].
  rewrite (parsed_filter_encodable _ _ Hp), encode_id_filter.
  rewrite <- (queried_sent _ _ Hp).
  destruct (queried contact_id) as [o|]; cbn [fmap option_fmap option_map].
  - destruct (connected m); [| done]. cbn [negb].
    by destruct (list_find _ _) as [[i d]|].
  - by destruct (connected m).
Qed.

End Handlers.

(** ** The service around the handlers *)

Section Respond.
Context {P : Pydantic} {D : Driver}.

Lemma respond_snd {A} (serialize : A -> option content) (handler : M A) (m : Mongo) :
  snd (respond serialize handler m) = snd (handler m).
Proof.
  unfold respond. destruct (handler m) as [[[]|a] m']; try done.
  by destruct (serialize a).
Qed.

Lemma respond_raise {A} (serialize : A -> option content) (handler : M A)
    (m m' : Mongo) (s : Z) (detail : string) :
  handler m = (inl (HTTPException s detail), m') ->
  respond serialize handler m = (http_error s detail, m').
Proof. unfold respond. by intros ->. Qed.

End Respond.

(** ** The router *)

Lemma route_path_param (contact_id : string) (endpoint : Mongo -> Response * Mongo) :
  path_param contact_id = true -> route contact_id endpoint = endpoint.
Proof.
  unfold path_param, route. intros [Hne Hsl]%andb_true_iff.
  destruct (bool_decide (contact_id = "")); [done |].
  by rewrite Hsl.
Qed.

(** A request either reaches its endpoint or is answered by the router, with
    405, 307 or 404, and then the store is not touched. *)
Lemma route_cases (contact_id : string) (endpoint : Mongo -> Response * Mongo)
    (m : Mongo) :
  (path_param contact_id = true /\ route contact_id endpoint m = endpoint m)
  \/ (path_param contact_id = false
      /\ snd (route contact_id endpoint m) = m
      /\ (status (fst (route contact_id endpoint m)) = 405
          \/ status (fst (route contact_id endpoint m)) = 307
          \/ status (fst (route contact_id endpoint m)) = 404)).
Proof.
  unfold route.
  destruct (bool_decide (contact_id = "")) eqn:He.
  { right. unfold path_param. rewrite He. by split_and!; [| | left]. }
  destruct (has_slash contact_id) eqn:Hs; cbn [negb].
  - right. split; [unfold path_param; by rewrite He, Hs |].
    destruct (path_param (rstrip_slash contact_id));
      cbn [fst snd status http_error]; auto.
  - left. unfold path_param. by rewrite He, Hs.
Qed.

Lemma fromhex_no_slash (s : string) (acc o : N) :
  bson.fromhex acc s = Some o -> has_slash s = false.
Proof.
  revert acc. induction s as [| c s IH]; intros acc; [done |].
  cbn [bson.fromhex has_slash].
  destruct (bson.hex_value c) as [d|] eqn:Hc; [| done].
  intros Hs. rewrite (IH _ Hs), orb_false_r.
  destruct (Ascii.eqb_spec c "/") as [-> |]; [| done].
  vm_compute in Hc. discriminate.
Qed.

(** Twenty-four hexadecimal digits are a path segment. *)
Lemma from_str_path_param (s : string) (o : N) :
  bson.from_str s = Some o -> path_param s = true.
Proof.
  unfold bson.from_str, path_param.
  destruct (String.length s =? 24)%nat eqn:Hlen; [| done].
  intros Hs. rewrite (fromhex_no_slash _ _ _ Hs).
  rewrite bool_decide_eq_false_2; [done |].
  intros ->. cbn in Hlen. discriminate.
Qed.

(** ** Identifiers that match nothing *)

Section NotFound.
Context {P : Pydantic} {D : Driver}.

(** C1 (the code does otherwise): when [update_one] reports
    [matched_count = 0], or [delete_one] reports [deleted_count = 0], the
    handler raises the 404 inside its own [try], the [except Exception]
    clause catches it, and the service answers 500. *)
Theorem unmatched_id_answers_500 (contact_id : string) (o : N)
    (payload : dict) (contact : Contact) (m : Mongo) :
  bson.from_str contact_id = Some o ->
  Contact_validate payload = inr contact ->
  (forall m', collection.update_one {[ "_id" := VOid o ]} (Contact_dict contact) m
              = (inr {| matched_count := 0 |}, m') ->
     app (PUT_contacts contact_id payload) m
     = (http_error 500 "Error updating contact", m'))
  /\ (forall m', collection.delete_one {[ "_id" := VOid o ]} m
                 = (inr {| deleted_count := 0 |}, m') ->
     app (DELETE_contacts contact_id) m
     = (http_error 500 "Error deleting contact", m')).
Proof.
  intros Ho Hc. pose proof (parse_from_str _ _ Ho) as Hp.
  split; intros m' Hm; cbn [app];
    rewrite (route_path_param _ _ (from_str_path_param _ _ Ho)), ?Hc;
    apply respond_raise.
  - unfold update_contact, try_except, mbind, M_bind, ObjectId.
    by rewrite Hp, Hm.
  - unfold delete_contact, try_except, mbind, M_bind, ObjectId.
    by rewrite Hp, Hm.
Qed.

End NotFound.

Lemma unmatched_id_answers_500_witness :
  app (P := strict) (D := python_encoder)
    (PUT_contacts "000000000000000000000000" ann_payload) no_contacts
  = (http_error 500 "Error updating contact", no_contacts)
  /\ app (P := strict) (D := python_encoder)
       (DELETE_contacts "000000000000000000000000") no_contacts
     = (http_error 500 "Error deleting contact", no_contacts).
Proof.
  destruct (unmatched_id_answers_500 (P := strict) (D := python_encoder)
              "000000000000000000000000" 0
              ann_payload ann no_contacts) as [Hput Hdel].
  - vm_compute; reflexivity.
  - vm_compute; reflexivity.
  - split; [apply Hput | apply Hdel]; vm_compute; reflexivity.
Defined.

(** ** Malformed identifiers *)

Section Malformed.
Context {P : Pydantic} {D : Driver}.

(** C5 (as amended): when [ObjectId] refuses the path id, which it does
    unless the id has twenty-four characters that [bytes.fromhex] takes, the
    handler raises inside its [try] and both the update and the delete
    handler end in the generic 500, the store untouched.  The service
    answers with that 500 when the request reaches the handler: the id is a
    path segment and, for an update, the payload validates.  An update
    whose payload does not validate is answered 422 whatever the id is. *)
Theorem malformed_id_answers_500 (contact_id : string) (contact : Contact)
    (payload : dict) (m : Mongo) :
  bson.parse contact_id = None ->
  update_contact contact_id contact m
  = (inl (HTTPException 500 "Error updating contact"), m)
  /\ delete_contact contact_id m
     = (inl (HTTPException 500 "Error deleting contact"), m)
  /\ (path_param contact_id = true ->
      match Contact_validate payload with
      | inr _ =>
          app (PUT_contacts contact_id payload) m
          = (http_error 500 "Error updating contact", m)
      | inl l =>
          app (PUT_contacts contact_id payload) m
          = ({| status := 422; body := ErrorLocs l |}, m)
      end
      /\ app (DELETE_contacts contact_id) m
         = (http_error 500 "Error deleting contact", m)).
Proof.
  intros Hid. apply queried_refused in Hid.
  assert (Hu : forall c, update_contact contact_id c m
               = (inl (HTTPException 500 "Error updating contact"), m))
    by (intros c; by rewrite update_contact_eq, Hid).
  assert (Hd : delete_contact contact_id m
               = (inl (HTTPException 500 "Error deleting contact"), m))
    by (by rewrite delete_contact_eq, Hid).
  split_and!; [done | done |].
  intros Hseg. cbn [app]. rewrite !(route_path_param _ _ Hseg). split.
  - destruct (Contact_validate payload) as [l | c]; [done |].
    by apply respond_raise.
  - by apply respond_raise.
Qed.

End Malformed.

Lemma malformed_id_answers_500_witness :
  bson.parse "not-an-id" = None
  /\ path_param "not-an-id" = true
  /\ app (P := strict) (D := python_encoder)
       (PUT_contacts "not-an-id" ann_payload) one_contact
     = (http_error 500 "Error updating contact", one_contact)
  /\ app (P := strict) (D := python_encoder)
       (DELETE_contacts "not-an-id") one_contact
     = (http_error 500 "Error deleting contact", one_contact).
Proof.
  assert (Hid : bson.parse "not-an-id" = None) by reflexivity.
  assert (Hseg : path_param "not-an-id" = true) by reflexivity.
  destruct (malformed_id_answers_500 (P := strict) (D := python_encoder)
              "not-an-id" ann ann_payload one_contact Hid)
    as (_ & _ & Hsvc).
  destruct (Hsvc Hseg) as [Hput Hdel].
  split_and!; [exact Hid | exact Hseg | exact Hput | exact Hdel].
Defined.

(** C5 as it is worded fails: an update whose path id [ObjectId] refuses
    and whose payload does not validate is answered 422, a client error: the
    body is validated before the handler, and with it [ObjectId], runs. *)
Lemma malformed_id_not_always_500 :
  ~ refused_id_is_500 (P := strict) (D := python_encoder)
      (PUT_contacts "not-an-id" ∅) one_contact
  /\ status (fst (app (P := strict) (D := python_encoder)
                    (PUT_contacts "not-an-id" ∅) one_contact)) = 422.
Proof.
  split; [| reflexivity].
  intros Hclaim. specialize (Hclaim eq_refl). vm_compute in Hclaim. discriminate.
Qed.

(** ** Requests that leave the collection alone *)

Lemma lookup_id_None (o : N) (m : Mongo) :
  (forall d, d ∈ docs m -> d !! "_id" <> Some (VOid o)) -> lookup_id o m = None.
Proof.
  intros Hno. unfold lookup_id. apply list_find_None, Forall_forall.
  intros d Hd. rewrite matches_id. by apply Hno.
Qed.

Section Unchanged.
Context {P : Pydantic} {D : Driver}.

(** C6: when the path id is the ["_id"] of no stored document, neither the
    update nor the delete changes the collection; the whole state of the
    store is what it was. *)
Theorem unmatched_id_changes_nothing (contact_id : string) (contact : Contact)
    (payload : dict) (m : Mongo) :
  (forall d, d ∈ docs m -> ~ has_id contact_id d) ->
  snd (update_contact contact_id contact m) = m
  /\ snd (delete_contact contact_id m) = m
  /\ snd (app (PUT_contacts contact_id payload) m) = m
  /\ snd (app (DELETE_contacts contact_id) m) = m.
Proof.
  intros Hno.
  assert (Hu : forall c, snd (update_contact contact_id c m) = m).
  { intros c. rewrite update_contact_eq.
    destruct (queried contact_id) as [o|] eqn:Ho; [| done].
    rewrite lookup_id_None by (unfold has_id in Hno; naive_solver).
    by destruct (_ && _). }
  assert (Hd : snd (delete_contact contact_id m) = m).
  { rewrite delete_contact_eq.
    destruct (queried contact_id) as [o|] eqn:Ho; [| done].
    rewrite lookup_id_None by (unfold has_id in Hno; naive_solver).
    by destruct (connected m). }
  split_and!; [done | done | |]; cbn [app].
  - destruct (route_cases contact_id
                match Contact_validate payload with
                | inr c => respond (λ d, Some (JSONObject d)) (update_contact contact_id c)
                | inl l => unprocessable l
                end m) as [[_ ->] | (_ & Hm & _)]; [| done].
    destruct (Contact_validate payload); [done |]. by rewrite respond_snd.
  - destruct (route_cases contact_id
                (respond (λ d, Some (JSONObject d)) (delete_contact contact_id)) m)
      as [[_ ->] | (_ & Hm & _)]; [| done].
    by rewrite respond_snd.
Qed.

End Unchanged.

Lemma unmatched_id_changes_nothing_witness :
  snd (app (P := strict) (D := python_encoder)
         (PUT_contacts "000000000000000000000007" ann_payload) one_contact)
  = one_contact
  /\ snd (app (P := strict) (D := python_encoder)
            (DELETE_contacts "000000000000000000000007") one_contact)
     = one_contact.
Proof.
  destruct (unmatched_id_changes_nothing (P := strict) (D := python_encoder)
              "000000000000000000000007" ann ann_payload one_contact)
    as (_ & _ & Hput & Hdel).
  - intros d Hd (o & Ho & Hid).
    assert (o = 7%N) as -> by (vm_compute in Ho; congruence).
    apply list_elem_of_In in Hd. vm_compute in Hd.
    destruct Hd as [<- | []]. vm_compute in Hid. discriminate.
  - split; [exact Hput | exact Hdel].
Defined.

(** ** Creating a contact *)

Lemma create_contact_inr (contact : Contact) (m m' : Mongo) (ret : dict) :
  create_contact contact m = (inr ret, m') ->
  ret = created m
  /\ m' = with_docs (docs m ++ [stored contact m]) (tick m)
  /\ connected m = true
  /\ Some (VOid (next_oid m)) ∉ collection.ids (docs m).
Proof.
  rewrite create_contact_eq. destruct (connected m); [| done].
  destruct (collection.encodable _); [| done].
  cbn [negb orb]. case_bool_decide; [done |].
  by intros [= <- <-].
Qed.

Lemma create_contact_inl (contact : Contact) (m m' : Mongo) (e : exn) :
  create_contact contact m = (inl e, m') ->
  e = HTTPException 500 "Error creating contact" /\ docs m' = docs m.
Proof.
  rewrite create_contact_eq. destruct (_ || _); [| done]. by intros [= <- <-].
Qed.

Lemma to_str_nonempty (o : N) : bson.to_str o <> "".
Proof. done. Qed.

Lemma stored_holds (contact : Contact) (m : Mongo) : holds contact (stored contact m).
Proof.
  unfold holds, collection.matches, stored.
  apply insert_subseteq, Contact_dict_no_id.
Qed.

Section Create.
Context {P : Pydantic} {D : Driver}.

(** What a create that is answered with 200 has done. *)
Lemma app_POST_200 (payload : dict) (contact : Contact) (m m' : Mongo)
    (resp : Response) :
  Contact_validate payload = inr contact ->
  app (POST_contacts payload) m = (resp, m') ->
  status resp = 200 ->
  resp = {| status := 200; body := JSONObject (created m) |}
  /\ m' = with_docs (docs m ++ [stored contact m]) (tick m).
Proof.
  intros Hc Happ Hst. cbn [app] in Happ. rewrite Hc in Happ.
  unfold respond in Happ.
  destruct (create_contact contact m) as [[e|ret] m1] eqn:Hcr.
  - apply create_contact_inl in Hcr as [-> _].
    injection Happ as <- <-. done.
  - apply create_contact_inr in Hcr as (-> & -> & _).
    by injection Happ as <- <-.
Qed.


End Create.


(** ** Creating, then listing *)

(** C7 (as amended): when a create succeeds, a list that follows returns the
    documents stored before it followed by one new document; the new
    document holds the four submitted fields and an [ObjectId] whose text is
    not empty, the text the create answered with.  The listing therefore has
    one more document with the submitted fields than the collection had, and
    exactly one when the collection had none. *)
Theorem create_then_list_adds_one (contact : Contact) (m m' : Mongo) (ret : dict) :
  create_contact contact m = (inr ret, m') ->
  exists d o,
    create_then_list contact m = inr (docs m ++ [d])
    /\ holds contact d
    /\ d !! "_id" = Some (VOid o)
    /\ bson.to_str o <> ""
    /\ ret !! "id" = Some (VStr (bson.to_str o))
    /\ length (filter (holds contact) (docs m ++ [d]))
       = S (length (filter (holds contact) (docs m)))
    /\ (Forall (λ d0, ~ holds contact d0) (docs m) ->
        filter (holds contact) (docs m ++ [d]) = [d]).
Proof.
  intros Hcr. unfold create_then_list. rewrite Hcr.
  apply create_contact_inr in Hcr as (-> & -> & Hconn & _).
  exists (stored contact m), (next_oid m).
  rewrite get_contacts_eq. cbn [connected with_docs tick docs snd fst].
  rewrite Hconn. split_and!.
  - done.
  - apply stored_holds.
  - apply lookup_insert_eq.
  - apply to_str_nonempty.
  - done.
  - rewrite filter_app, length_app, filter_cons_True by apply stored_holds.
    cbn. lia.
  - intros Hnone. rewrite filter_app, filter_cons_True by apply stored_holds.
    assert (filter (holds contact) (docs m) = []) as ->; [| done].
    induction Hnone as [| d0 l Hd0 _ IH]; [done |].
    by rewrite filter_cons_False.
Qed.

Lemma create_then_list_adds_one_witness :
  exists d,
    create_then_list ann one_contact = inr (docs one_contact ++ [d])
    /\ d !! "_id" = Some (VOid 1)
    /\ length (filter (holds ann) (docs one_contact ++ [d])) = 2%nat.
Proof.
  destruct (create_then_list_adds_one ann one_contact
              (snd (create_contact ann one_contact))
              (created one_contact))
    as (d & o & Hl & _ & Hid & _ & _ & Hn & _).
  - vm_compute; reflexivity.
  - exists d. split; [exact Hl |].
    assert (d = stored ann one_contact) as ->.
    { vm_compute in Hl. injection Hl as Hl. symmetry. exact Hl. }
    split; [vm_compute; reflexivity | vm_compute; reflexivity].
Defined.

(** C7 as worded fails: a second create of the same fields leaves two
    documents with them in the listing, not exactly one. *)
Lemma exactly_one_listed_fails : ~ exactly_one_listed ann one_contact.
Proof.
  intros (l & d & o & Hl & Hf & _).
  vm_compute in Hl. injection Hl as <-.
  vm_compute in Hf. discriminate Hf.
Qed.

(** ** Validation of a payload *)

Section Validation.
Context {P : Pydantic} {D : Driver}.

Lemma field_missing {A} (validator : value -> option A) (k : string) (data : dict) :
  data !! k = None -> field validator k data = inl [k].
Proof. unfold field. by intros ->. Qed.

(** Validation looks at the declared fields and at nothing else. *)
Lemma Contact_validate_agree (data data' : dict) :
  (forall k, k ∈ Contact_fields -> data !! k = data' !! k) ->
  Contact_validate data = Contact_validate data'.
Proof.
  intros Hk. unfold Contact_validate, field.
  rewrite <- !Hk by (unfold Contact_fields; set_solver). done.
Qed.

(** A payload in which a declared field is missing, or has a value its
    annotation does not take, fails validation, and the field is reported. *)
Lemma field_not_ok {A} (validator : value -> option A) (k : string) (data : dict) :
  match data !! k with
  | Some v => bool_decide (is_Some (validator v))
  | None => false
  end = false ->
  field validator k data = inl [k].
Proof.
  unfold field. destruct (data !! k) as [v|]; [| done].
  destruct (validator v); [| done].
  intros Hv. apply bool_decide_eq_false in Hv. destruct Hv. eauto.
Qed.

Lemma Contact_validate_fails (data : dict) (k : string) :
  k ∈ Contact_fields -> field_ok k data = false ->
  exists l, Contact_validate data = inl l /\ k ∈ l.
Proof.
  intros Hk Hbad. unfold Contact_fields in Hk.
  rewrite !elem_of_cons, elem_of_nil in Hk.
  unfold Contact_validate.
  destruct Hk as [-> | [-> | [-> | [-> | []]]]];
    apply field_not_ok in Hbad; rewrite Hbad;
    repeat match goal with
           | |- context [match field ?v ?k ?d with _ => _ end] =>
               destruct (field v k d)
           end;
    eexists; (split; [reflexivity |]); cbn [locs]; set_solver.
Qed.

(** A payload that lacks a declared field does not validate. *)
Lemma Contact_validate_missing (data : dict) (k : string) :
  k ∈ Contact_fields -> data !! k = None ->
  exists l, Contact_validate data = inl l /\ k ∈ l.
Proof.
  intros Hk Hnone. apply Contact_validate_fails; [done |].
  unfold field_ok. by rewrite Hnone.
Qed.

(** The documents the service stores read back as the contact they were
    made from. *)
Lemma Contact_validate_holds (contact : Contact) (d : dict) :
  holds contact d -> Contact_validate d = inr contact.
Proof.
  unfold holds, collection.matches. intros Hsub.
  assert (Hk : forall k v, Contact_dict contact !! k = Some v -> d !! k = Some v)
    by (intros k v Hkv; by eapply lookup_weaken).
  unfold Contact_validate, field.
  rewrite (Hk "name" (VStr (name contact))), (Hk "age" (VInt (age contact))),
    (Hk "mobile" (VStr (mobile contact))), (Hk "email" (VStr (email contact)))
    by (by rewrite Contact_dict_lookup).
  rewrite !str_validator_str, int_validator_int. by destruct contact.
Qed.


(** C10: fields that [Contact] does not declare, an ["id"] among them, do
    not change whether a payload validates nor what the create does; the
    document a successful create stores has the ["_id"] the store generated
    and the four declared fields, and no other key. *)
Theorem extra_fields_discarded (payload extra : dict) (contact : Contact)
    (m : Mongo) :
  Contact_validate payload = inr contact ->
  (forall k, k ∈ Contact_fields -> extra !! k = None) ->
  Contact_validate (payload ∪ extra) = inr contact
  /\ app (POST_contacts (payload ∪ extra)) m = app (POST_contacts payload) m
  /\ forall resp m',
       app (POST_contacts (payload ∪ extra)) m = (resp, m') ->
       status resp = 200 ->
       exists d, docs m' = docs m ++ [d]
                 /\ dom d = {[ "_id" ]} ∪ list_to_set Contact_fields
                 /\ d !! "_id" = Some (VOid (next_oid m))
                 /\ holds contact d.
Proof.
  intros Hc Hextra.
  assert (Hv : Contact_validate (payload ∪ extra) = inr contact).
  { rewrite <- Hc. apply Contact_validate_agree. intros k Hk.
    rewrite lookup_union, (Hextra k Hk). by destruct (payload !! k). }
  split_and!; [done | by cbn [app]; rewrite Hv, Hc |].
  intros resp m' Happ Hst.
  destruct (app_POST_200 _ _ _ _ _ Hv Happ Hst) as [_ ->].
  exists (stored contact m). split_and!; [done | | apply lookup_insert_eq | apply stored_holds].
  unfold stored. by rewrite dom_insert_L, Contact_dict_dom.
Qed.

End Validation.



Lemma extra_fields_discarded_witness :
  app (P := strict) (D := python_encoder)
      (POST_contacts (ann_payload ∪ client_extras)) no_contacts
  = app (P := strict) (D := python_encoder) (POST_contacts ann_payload) no_contacts
  /\ exists d, docs (snd (app (P := strict) (D := python_encoder)
                            (POST_contacts (ann_payload ∪ client_extras))
                            no_contacts)) = [d]
               /\ dom d = {[ "_id" ]} ∪ list_to_set Contact_fields
               /\ d !! "_id" = Some (VOid 0).
Proof.
  destruct (extra_fields_discarded (P := strict) (D := python_encoder)
      ann_payload client_extras ann
              no_contacts)
    as (_ & Hsame & Hdoc).
  - vm_compute; reflexivity.
  - intros k Hk. unfold Contact_fields in Hk.
    rewrite !elem_of_cons, elem_of_nil in Hk.
    destruct Hk as [-> | [-> | [-> | [-> | []]]]]; vm_compute; reflexivity.
  - split; [exact Hsame |].
    destruct (app (P := strict) (D := python_encoder)
        (POST_contacts (ann_payload ∪ client_extras))
                no_contacts) as [resp m'] eqn:Happ.
    destruct (Hdoc resp m' eq_refl) as (d & Hd & Hdom & Hid & _).
    + vm_compute in Happ. injection Happ as <- _. reflexivity.
    + exists d. split_and!; [exact Hd | exact Hdom | exact Hid].
Defined.

(** ** Listing *)

Section Listing.
Context {P : Pydantic} {D : Driver}.

Lemma List_Contact_Some (contacts : list dict) (c : content) :
  List_Contact contacts = Some c ->
  exists l, c = JSONArray l
            /\ Forall2 (λ d d', exists contact,
                          Contact_validate d = inr contact
                          /\ d' = Contact_dict contact) contacts l.
Proof.
  unfold List_Contact. intros Hc.
  apply fmap_Some in Hc as (l & Hl & ->). exists l. split; [done |].
  apply mapM_Some in Hl. eapply Forall2_impl; [exact Hl |].
  intros d d' Hd. cbn beta in Hd.
  destruct (Contact_validate d) as [|contact]; [done |].
  injection Hd as <-. by exists contact.
Qed.

(** C2 (the code does otherwise): every element of the array the list
    route answers with has the four declared fields and no other key;
    neither ["id"] nor ["_id"] is present, whatever the collection
    holds. *)
Theorem listing_has_no_id (m m' : Mongo) (resp : Response) (l : list dict) :
  app GET_contacts m = (resp, m') ->
  body resp = JSONArray l ->
  Forall (λ d : dict, dom d = list_to_set Contact_fields
                      /\ d !! "id" = None /\ d !! "_id" = None) l.
Proof.
  cbn [app]. unfold respond. intros Happ Hbody.
  destruct (get_contacts m) as [[e|contacts] m1].
  { destruct e; injection Happ as <- <-; done. }
  destruct (List_Contact contacts) as [c|] eqn:Hc;
    injection Happ as <- <-; [| done].
  apply List_Contact_Some in Hc as (l' & -> & Hl').
  cbn [body] in Hbody. injection Hbody as ->.
  eapply Forall2_Forall_r; [exact Hl' |].
  apply Forall_forall. intros d _ d' (contact & _ & ->).
  rewrite Contact_dict_dom, !Contact_dict_lookup. done.
Qed.

End Listing.

Lemma listing_has_no_id_witness :
  exists l,
    body (fst (app (P := strict) (D := python_encoder)
        GET_contacts one_contact)) = JSONArray l
    /\ l = [ann_payload]
    /\ Forall (λ d : dict, dom d = list_to_set Contact_fields
                           /\ d !! "id" = None /\ d !! "_id" = None) l.
Proof.
  exists [ann_payload].
  assert (Happ : app (P := strict) (D := python_encoder) GET_contacts one_contact
                 = ({| status := 200; body := JSONArray [ann_payload] |}, one_contact))
    by (vm_compute; reflexivity).
  split_and!.
  - rewrite Happ. reflexivity.
  - reflexivity.
  - apply (listing_has_no_id (P := strict) (D := python_encoder)
      one_contact one_contact _ _ Happ).
    reflexivity.
Defined.

(** ** Identifiers are unique and stay *)

Section UniqueIds.
Context {D : Driver}.

Lemma lookup_id_Some (o : N) (m : Mongo) (i : nat) (d : dict) :
  lookup_id o m = Some (i, d) ->
  docs m !! i = Some d /\ d !! "_id" = Some (VOid o).
Proof.
  unfold lookup_id. intros (Hi & Hm & _)%list_find_Some.
  by apply matches_id in Hm.
Qed.

Lemma ids_lookup (l : list dict) (i : nat) (d : dict) :
  l !! i = Some d -> collection.ids l !! i = Some (d !! "_id").
Proof. intros Hi. unfold collection.ids. by rewrite list_lookup_fmap, Hi. Qed.

(** Once the first document with an ["_id"] is gone, no document of a
    collection with unique identifiers has it. *)
Lemma delete_removes_id (l : list dict) (i : nat) (d0 d : dict) :
  NoDup (collection.ids l) -> l !! i = Some d0 ->
  d ∈ delete i l -> d !! "_id" <> d0 !! "_id".
Proof.
  intros Hnd Hi (j & Hj)%list_elem_of_lookup Heq.
  apply ids_lookup in Hi.
  destruct (decide (j < i)%nat) as [Hlt | Hge].
  - rewrite list_lookup_delete_lt in Hj by done.
    apply ids_lookup in Hj. rewrite Heq in Hj.
    pose proof (NoDup_lookup _ _ _ _ Hnd Hi Hj). lia.
  - rewrite list_lookup_delete_ge in Hj by lia.
    apply ids_lookup in Hj. rewrite Heq in Hj.
    pose proof (NoDup_lookup _ _ _ _ Hnd Hi Hj). lia.
Qed.

Lemma unique_ids_create (contact : Contact) (m : Mongo) :
  unique_ids m -> unique_ids (snd (create_contact contact m)).
Proof.
  intros [Hnd Hall]. rewrite create_contact_eq.
  destruct (connected m); [| done].
  destruct (collection.encodable _); [| done].
  cbn [negb orb]. case_bool_decide as Hin; [done |].
  unfold unique_ids. cbn [snd docs with_docs].
  unfold collection.ids in *. rewrite fmap_app. split.
  - apply NoDup_app. split_and!; [done | | apply NoDup_singleton].
    intros x Hx Hx'. apply list_elem_of_singleton in Hx' as ->.
    unfold stored in Hx. cbn [fmap list_fmap] in Hx.
    by rewrite lookup_insert_eq in Hx.
  - apply Forall_app. split; [done |]. apply Forall_singleton.
    unfold stored. by rewrite lookup_insert_eq.
Qed.

Lemma update_keeps_ids (fields : dict) (l : list dict) (i : nat) (d : dict) :
  fields !! "_id" = None -> l !! i = Some d ->
  collection.ids (<[i := fields ∪ d]> l) = collection.ids l.
Proof.
  intros Hf Hi. unfold collection.ids.
  rewrite list_fmap_insert, lookup_union_r by done.
  apply list_insert_id. by rewrite list_lookup_fmap, Hi.
Qed.

Lemma unique_ids_update (contact_id : string) (contact : Contact) (m : Mongo) :
  unique_ids m -> unique_ids (snd (update_contact contact_id contact m)).
Proof.
  intros [Hnd Hall]. rewrite update_contact_eq.
  destruct (queried contact_id) as [o|]; [| done].
  destruct (_ && _); [| done].
  destruct (lookup_id o m) as [[i d]|] eqn:Hfind; [| done].
  apply lookup_id_Some in Hfind as [Hi Hid].
  unfold unique_ids. cbn [snd docs with_docs].
  rewrite update_keeps_ids by auto using Contact_dict_no_id. split; [done |].
  apply Forall_insert; [done |].
  by rewrite lookup_union_r, Hid by apply Contact_dict_no_id.
Qed.

Lemma unique_ids_delete (contact_id : string) (m : Mongo) :
  unique_ids m -> unique_ids (snd (delete_contact contact_id m)).
Proof.
  intros [Hnd Hall]. rewrite delete_contact_eq.
  destruct (queried contact_id) as [o|]; [| done].
  destruct (connected m); [| done].
  destruct (lookup_id o m) as [[i d]|] eqn:Hfind; [| done].
  unfold unique_ids. cbn [snd docs with_docs]. split.
  - eapply sublist_NoDup; [exact Hnd |].
    unfold collection.ids. apply fmap_sublist, sublist_delete.
  - apply Forall_forall. intros d' Hd'%list_elem_of_delete_inv.
    rewrite Forall_forall in Hall. by apply Hall.
Qed.

(** C8: in a collection with unique identifiers, whatever the path id, the
    documents [get_contacts] returns after [delete_contact] include none
    whose ["_id"] is the one the path id names. *)
Theorem deleted_id_not_listed (contact_id : string) (m m' : Mongo) (l : list dict) :
  unique_ids m ->
  get_contacts (snd (delete_contact contact_id m)) = (inr l, m') ->
  forall d, d ∈ l -> ~ has_id contact_id d.
Proof.
  intros [Hnd _] Hlist d Hd (o & Ho & Hid).
  rewrite delete_contact_eq, Ho in Hlist.
  rewrite get_contacts_eq in Hlist.
  destruct (connected m) eqn:Hconn.
  - destruct (lookup_id o m) as [[i d0]|] eqn:Hfind;
      cbn [snd connected with_docs docs] in Hlist;
      rewrite Hconn in Hlist; injection Hlist as <- _.
    + apply lookup_id_Some in Hfind as [Hi Hid0].
      apply (delete_removes_id _ _ _ _ Hnd Hi Hd). congruence.
    + unfold lookup_id in Hfind.
      apply list_find_None in Hfind.
      rewrite Forall_forall in Hfind. apply (Hfind d Hd). by apply matches_id.
  - cbn [snd] in Hlist. by rewrite Hconn in Hlist.
Qed.

End UniqueIds.

Lemma unique_ids_no_contacts : unique_ids no_contacts.
Proof. split; constructor. Qed.

Lemma unique_ids_two_contacts : unique_ids two_contacts.
Proof. do 2 apply unique_ids_create. apply unique_ids_no_contacts. Qed.

Lemma deleted_id_not_listed_witness :
  exists l,
    get_contacts (snd (delete_contact (D := python_encoder)
        "000000000000000000000000" two_contacts))
    = (inr l, snd (delete_contact (D := python_encoder)
        "000000000000000000000000" two_contacts))
    /\ length l = 1%nat
    /\ forall d, d ∈ l -> ~ has_id (D := python_encoder) "000000000000000000000000" d.
Proof.
  eexists. split; [vm_compute; reflexivity |]. split; [reflexivity |].
  eapply (deleted_id_not_listed (D := python_encoder)
      "000000000000000000000000" two_contacts).
  - apply unique_ids_two_contacts.
  - vm_compute; reflexivity.
Defined.

Section Identity.
Context {P : Pydantic} {D : Driver}.

Lemma update_outside_fields (contact : Contact) (d : dict) (k : string) :
  k ∉ Contact_fields -> (Contact_dict contact ∪ d) !! k = d !! k.
Proof.
  intros Hk. apply lookup_union_r. apply not_elem_of_dom.
  rewrite Contact_dict_dom. by rewrite elem_of_list_to_set.
Qed.

(** C9: every request keeps the identifiers unique and in place.  A create
    adds at most one document, whose ["_id"] is the [ObjectId] the store
    generated and whose other keys are the four declared fields of the
    validated payload; a list changes nothing; an update keeps the ["_id"]
    of every document, changes no key outside the four declared fields and
    touches no document but the one the path id names; a delete only
    removes. *)
Theorem ids_assigned_once (r : Request) (m : Mongo) :
  unique_ids m ->
  unique_ids (snd (app r m))
  /\ match r with
     | POST_contacts payload =>
         docs (snd (app r m)) = docs m
         \/ exists contact,
             Contact_validate payload = inr contact
             /\ docs (snd (app r m))
                = docs m ++ [<["_id" := VOid (next_oid m)]> (Contact_dict contact)]
     | GET_contacts => snd (app r m) = m
     | PUT_contacts contact_id _ =>
         collection.ids (docs (snd (app r m))) = collection.ids (docs m)
         /\ Forall2 (λ d d' : dict,
                       (forall k, k ∉ Contact_fields -> d' !! k = d !! k)
                       /\ (~ has_id contact_id d -> d' = d))
              (docs m) (docs (snd (app r m)))
     | DELETE_contacts _ => docs (snd (app r m)) `sublist_of` docs m
     end.
Proof.
  intros Hu. destruct r as [payload | | contact_id payload | contact_id];
    cbn [app].
  - destruct (Contact_validate payload) as [l | contact] eqn:Hc.
    { split; [done | by left]. }
    rewrite respond_snd. split; [by apply unique_ids_create |].
    rewrite create_contact_eq. destruct (_ || _); [by left |].
    right. by exists contact.
  - rewrite respond_snd, get_contacts_eq. by destruct (connected m).
  - assert (Hsame : Forall2 (λ d d' : dict,
                       (forall k, k ∉ Contact_fields -> d' !! k = d !! k)
                       /\ (~ has_id contact_id d -> d' = d)) (docs m) (docs m))
      by (by apply Forall_Forall2_diag, Forall_true).
    destruct (route_cases contact_id
                match Contact_validate payload with
                | inr c => respond (λ d, Some (JSONObject d)) (update_contact contact_id c)
                | inl l => unprocessable l
                end m) as [[_ ->] | (_ & -> & _)]; [| done].
    destruct (Contact_validate payload) as [l | contact] eqn:Hc; [done |].
    rewrite respond_snd. split; [by apply unique_ids_update |].
    rewrite update_contact_eq.
    destruct (queried contact_id) as [o|] eqn:Ho; [| done].
    destruct (_ && _); [| done].
    destruct (lookup_id o m) as [[i d]|] eqn:Hfind; [| done].
    apply lookup_id_Some in Hfind as [Hi Hid].
    cbn [snd docs with_docs]. split.
    + by apply update_keeps_ids; [apply Contact_dict_no_id |].
    + rewrite <- (list_insert_id (docs m) i d Hi) at 1.
      apply Forall2_insert; [done |]. split.
      * intros k Hk. by apply update_outside_fields.
      * intros Hno. destruct Hno. by exists o.
  - destruct (route_cases contact_id
                (respond (λ d, Some (JSONObject d)) (delete_contact contact_id)) m)
      as [[_ ->] | (_ & -> & _)]; [| done].
    rewrite respond_snd. split; [by apply unique_ids_delete |].
    rewrite delete_contact_eq.
    destruct (queried contact_id) as [o|]; [| done].
    destruct (connected m); [| done].
    destruct (lookup_id o m) as [[i d]|]; [| done].
    apply sublist_delete.
Qed.

End Identity.

Lemma ids_assigned_once_witness :
  unique_ids two_contacts
  /\ unique_ids (snd (app (P := strict) (D := python_encoder)
                        (PUT_contacts "000000000000000000000001" ann_payload)
                        two_contacts))
  /\ collection.ids (docs (snd (app (P := strict) (D := python_encoder)
                                  (PUT_contacts "000000000000000000000001" ann_payload)
                                  two_contacts)))
     = [Some (VOid 0); Some (VOid 1)].
Proof.
  pose proof unique_ids_two_contacts as Hu.
  destruct (ids_assigned_once (P := strict) (D := python_encoder)
              (PUT_contacts "000000000000000000000001" ann_payload) two_contacts Hu)
    as (Hu' & Hids & _).
  split_and!; [exact Hu | exact Hu' |].
  rewrite Hids. vm_compute. reflexivity.
Defined.

(** * Further properties of the handlers *)

(** ** The text of an [ObjectId] reads back *)

Lemma hex_value_digit (d : N) :
  (d < 16)%N -> bson.hex_value (bson.hex_digit d) = Some d.
Proof.
  intros Hd.
  assert (Hall : Forall (λ d, bson.hex_value (bson.hex_digit d) = Some d)
                   (N.of_nat <$> seq 0 16)) by (repeat constructor).
  rewrite Forall_forall in Hall. apply Hall.
  apply list_elem_of_fmap. exists (N.to_nat d). split; [lia |].
  apply elem_of_seq. lia.
Qed.

Lemma length_hexlify (k : nat) (o : N) : String.length (bson.hexlify k o) = k.
Proof. induction k as [| k IH]; cbn; [done | by rewrite IH]. Qed.

Lemma fromhex_hexlify (k : nat) (acc o : N) :
  bson.fromhex acc (bson.hexlify k o)
  = Some (acc * 16 ^ N.of_nat k + o mod 16 ^ N.of_nat k)%N.
Proof.
  revert acc. induction k as [| k IH]; intros acc.
  - cbn [bson.hexlify bson.fromhex]. f_equal.
    change (16 ^ N.of_nat 0)%N with 1%N. rewrite N.mod_1_r. lia.
  - cbn [bson.hexlify bson.fromhex].
    rewrite hex_value_digit by (apply N.mod_upper_bound; lia).
    rewrite IH. f_equal.
    replace (N.of_nat (S k)) with (N.succ (N.of_nat k)) by lia.
    rewrite N.pow_succ_r'.
    rewrite (N.mul_comm 16 (16 ^ N.of_nat k)).
    rewrite (N.Div0.mod_mul_r o (16 ^ N.of_nat k) 16). lia.
Qed.

Lemma from_str_to_str (o : N) :
  (o < 2 ^ 96)%N -> bson.from_str (bson.to_str o) = Some o.
Proof.
  intros Ho. unfold bson.from_str, bson.to_str.
  rewrite length_hexlify, fromhex_hexlify. cbn [Nat.eqb].
  f_equal. rewrite N.mod_small; [lia |].
  change (16 ^ N.of_nat 24)%N with (2 ^ 96)%N. exact Ho.
Qed.

Lemma next_oid_lt (m : Mongo) : (next_oid m < 2 ^ 96)%N.
Proof. unfold next_oid, bson.wrap. apply N.mod_upper_bound. lia. Qed.

(** ** Failures *)

Section Failures.
Context {D : Driver}.

Lemma create_contact_outcome (contact : Contact) (m : Mongo) :
  returns_or_500 "Error creating contact" m (create_contact contact m).
Proof. rewrite create_contact_eq. by destruct (_ || _). Qed.

Lemma get_contacts_outcome (m : Mongo) :
  returns_or_500 "Error retrieving contacts" m (get_contacts m).
Proof. rewrite get_contacts_eq. by destruct (connected m). Qed.

Lemma update_contact_outcome (contact_id : string) (contact : Contact) (m : Mongo) :
  returns_or_500 "Error updating contact" m (update_contact contact_id contact m).
Proof.
  rewrite update_contact_eq.
  destruct (queried contact_id) as [o|]; [| done].
  destruct (_ && _); [| done]. by destruct (lookup_id o m) as [[i d]|].
Qed.

Lemma delete_contact_outcome (contact_id : string) (m : Mongo) :
  returns_or_500 "Error deleting contact" m (delete_contact contact_id m).
Proof.
  rewrite delete_contact_eq.
  destruct (queried contact_id) as [o|]; [| done].
  destruct (connected m); [| done]. by destruct (lookup_id o m) as [[i d]|].
Qed.

(** Whatever goes wrong inside a handler (an unreachable server, a refused
    write, a malformed or unmatched id, the handler's own 404) leaves it as
    [HTTPException(500, ...)] with that handler's fixed detail, and the
    stored documents are the ones the handler found. *)
Theorem handlers_fail_with_fixed_500 (contact_id : string) (contact : Contact)
    (m : Mongo) :
  returns_or_500 "Error creating contact" m (create_contact contact m)
  /\ returns_or_500 "Error retrieving contacts" m (get_contacts m)
  /\ returns_or_500 "Error updating contact" m (update_contact contact_id contact m)
  /\ returns_or_500 "Error deleting contact" m (delete_contact contact_id m).
Proof.
  split_and!; [apply create_contact_outcome | apply get_contacts_outcome
              | apply update_contact_outcome | apply delete_contact_outcome].
Qed.

End Failures.

Section Statuses.
Context {P : Pydantic} {D : Driver}.


End Statuses.

(** ** An unreachable server, an integer too wide *)

Section Unreachable.
Context {D : Driver}.

(** With the server out of reach every handler fails, each with its own
    500, and none changes a document. *)
Theorem unreachable_server_is_500 (contact_id : string) (contact : Contact)
    (m : Mongo) :
  connected m = false ->
  fst (create_contact contact m) = inl (HTTPException 500 "Error creating contact")
  /\ docs (snd (create_contact contact m)) = docs m
  /\ get_contacts m = (inl (HTTPException 500 "Error retrieving contacts"), m)
  /\ update_contact contact_id contact m
     = (inl (HTTPException 500 "Error updating contact"), m)
  /\ delete_contact contact_id m
     = (inl (HTTPException 500 "Error deleting contact"), m).
Proof.
  intros Hoff.
  rewrite create_contact_eq, get_contacts_eq, update_contact_eq, delete_contact_eq.
  rewrite Hoff. cbn [negb orb andb].
  by destruct (queried contact_id).
Qed.

End Unreachable.

Lemma unreachable_server_is_500_witness :
  connected unreachable = false
  /\ get_contacts unreachable
     = (inl (HTTPException 500 "Error retrieving contacts"), unreachable)
  /\ delete_contact (D := python_encoder) "000000000000000000000000" unreachable
     = (inl (HTTPException 500 "Error deleting contact"), unreachable).
Proof.
  assert (Hoff : connected unreachable = false) by reflexivity.
  destruct (unreachable_server_is_500 (D := python_encoder)
      "000000000000000000000000" ann unreachable
              Hoff) as (_ & _ & Hget & _ & Hdel).
  split_and!; [exact Hoff | exact Hget | exact Hdel].
Defined.

Section WideInteger.
Context {D : Driver}.

Lemma Contact_dict_not_encodable (contact : Contact) (d : dict) :
  collection.int64 (VInt (age contact)) = false ->
  Contact_dict contact ⊆ d -> collection.encodable d = false.
Proof.
  intros Hage Hsub. unfold collection.encodable.
  apply bool_decide_eq_false. intros Hall.
  assert (Hd : d !! "age" = Some (VInt (age contact))).
  { eapply lookup_weaken; [| exact Hsub]. by rewrite Contact_dict_lookup. }
  specialize (Hall "age" _ Hd). cbn beta in Hall. congruence.
Qed.

(** An [age] that does not fit BSON's eight-byte integer passes validation
    but cannot be stored: create and update answer with their 500 and no
    document changes. *)
Theorem wide_age_is_500 (contact_id : string) (contact : Contact) (m : Mongo) :
  (age contact < - 2 ^ 63 \/ 2 ^ 63 <= age contact) ->
  fst (create_contact contact m) = inl (HTTPException 500 "Error creating contact")
  /\ docs (snd (create_contact contact m)) = docs m
  /\ update_contact contact_id contact m
     = (inl (HTTPException 500 "Error updating contact"), m).
Proof.
  intros Hage.
  assert (Hwide : collection.int64 (VInt (age contact)) = false).
  { cbn [collection.int64]. apply andb_false_iff.
    destruct Hage; [left; apply Z.leb_gt | right; apply Z.ltb_ge]; lia. }
  rewrite create_contact_eq, update_contact_eq.
  rewrite (Contact_dict_not_encodable contact (stored contact m) Hwide)
    by apply stored_holds.
  rewrite (Contact_dict_not_encodable contact (Contact_dict contact) Hwide) by done.
  rewrite orb_true_r, andb_false_r. cbn [orb].
  by destruct (queried contact_id).
Qed.

End WideInteger.

Lemma wide_age_is_500_witness :
  fst (create_contact methuselah one_contact)
  = inl (HTTPException 500 "Error creating contact")
  /\ docs (snd (create_contact methuselah one_contact)) = docs one_contact
  /\ update_contact (D := python_encoder) "000000000000000000000000" methuselah one_contact
     = (inl (HTTPException 500 "Error updating contact"), one_contact).
Proof.
  apply (wide_age_is_500 (D := python_encoder)
      "000000000000000000000000" methuselah one_contact).
  right. vm_compute. discriminate.
Defined.

(** ** What a successful update and a successful delete do *)

Section UpdateNamed.
Context {D : Driver}.

Lemma has_id_iff (contact_id : string) (o : N) (d : dict) :
  queried contact_id = Some o ->
  has_id contact_id d <-> d !! "_id" = Some (VOid o).
Proof.
  intros Ho. unfold has_id. split.
  - intros (o' & Ho' & Hd). congruence.
  - intros Hd. by exists o.
Qed.

(** In a collection with unique identifiers the path id names at most one
    position. *)
Lemma has_id_unique (contact_id : string) (l : list dict) (i j : nat) (d d' : dict) :
  NoDup (collection.ids l) ->
  l !! i = Some d -> has_id contact_id d ->
  l !! j = Some d' -> has_id contact_id d' -> i = j.
Proof.
  intros Hnd Hi (o & Ho & Hd) Hj (o' & Ho' & Hd').
  assert (o' = o) as -> by congruence.
  apply ids_lookup in Hi, Hj. rewrite Hd in Hi. rewrite Hd' in Hj.
  by eapply NoDup_lookup.
Qed.

Lemma insert_at_unique (Q : dict -> Prop) `{!forall d, Decision (Q d)}
    (f : dict -> dict) (l : list dict) (i : nat) (d : dict) :
  l !! i = Some d -> Q d ->
  (forall j y, l !! j = Some y -> Q y -> j = i) ->
  <[i := f d]> l = (λ y, if decide (Q y) then f y else y) <$> l.
Proof.
  intros Hi HQ Huniq. apply list_eq. intros j.
  rewrite list_lookup_fmap.
  destruct (decide (j = i)) as [-> | Hne].
  - rewrite list_lookup_insert_eq by (by eapply lookup_lt_Some).
    rewrite Hi. cbn. by rewrite decide_True.
  - rewrite list_lookup_insert_ne by done.
    destruct (l !! j) as [y|] eqn:Hj; [| done]. cbn.
    rewrite decide_False; [done |]. intros HQy. by apply Hne, (Huniq j y).
Qed.

Lemma filter_keeps_all (Q : dict -> Prop) `{!forall d, Decision (Q d)}
    (l : list dict) :
  (forall y, y ∈ l -> Q y) -> filter Q l = l.
Proof.
  induction l as [| x l IH]; intros Hall; [done |].
  rewrite filter_cons_True by (apply Hall; left).
  f_equal. apply IH. intros y Hy. apply Hall. by right.
Qed.

Lemma delete_at_unique (Q : dict -> Prop) `{!forall d, Decision (Q d)}
    (l : list dict) (i : nat) (d : dict) :
  l !! i = Some d -> Q d ->
  (forall j y, l !! j = Some y -> Q y -> j = i) ->
  delete i l = filter (λ y, ~ Q y) l.
Proof.
  revert i. induction l as [| x l IH]; intros i Hi HQ Huniq; [done |].
  destruct i as [| i].
  - injection Hi as ->. cbn [delete list_delete].
    rewrite filter_cons_False by tauto.
    symmetry. apply filter_keeps_all.
    intros y Hy HQy. apply list_elem_of_lookup in Hy as [j Hj].
    by specialize (Huniq (S j) y Hj HQy).
  - cbn [delete list_delete].
    rewrite filter_cons_True by (intros HQx; by specialize (Huniq 0%nat x eq_refl HQx)).
    f_equal. apply IH; [done | done |].
    intros j y Hj HQy. by specialize (Huniq (S j) y Hj HQy) as [= ->].
Qed.

Lemma lookup_id_named (contact_id : string) (m : Mongo) :
  Exists (has_id contact_id) (docs m) ->
  exists o i d, queried contact_id = Some o
                /\ lookup_id o m = Some (i, d)
                /\ docs m !! i = Some d /\ has_id contact_id d.
Proof.
  intros (d0 & Hd0 & o & Ho & Hid)%Exists_exists.
  destruct (list_find_elem_of (collection.matches {[ "_id" := VOid o ]})
              (docs m) d0 Hd0) as [[i d] Hfind]; [by apply matches_id |].
  exists o, i, d. split; [done |]. split; [done |].
  apply lookup_id_Some in Hfind as [Hi Hd]. split; [done |]. by exists o.
Qed.

Lemma set_fields_holds (contact : Contact) (d : dict) :
  holds contact (set_fields contact d).
Proof. unfold holds, collection.matches, set_fields. apply map_union_subseteq_l. Qed.

(** When the path id names a stored document, and the server is reachable
    and the contact storable, the update succeeds: the named document gets
    the four submitted fields over what it had, every other document is
    left as it was, and afterwards each document with that id holds the
    submitted contact. *)
Theorem update_sets_fields_of_named (contact_id : string) (contact : Contact)
    (m : Mongo) :
  unique_ids m ->
  connected m = true ->
  collection.encodable (Contact_dict contact) = true ->
  Exists (has_id contact_id) (docs m) ->
  exists m',
    update_contact contact_id contact m
    = (inr {[ "message" := VStr "Contact updated successfully" ]}, m')
    /\ docs m' = (λ d, if decide (has_id contact_id d)
                       then set_fields contact d else d) <$> docs m
    /\ Forall (λ d', has_id contact_id d' -> holds contact d') (docs m').
Proof.
  intros [Hnd _] Hconn Henc Hex.
  destruct (lookup_id_named _ _ Hex) as (o & i & d & Ho & Hfind & Hi & Hid).
  assert (Hdocs : <[i := set_fields contact d]> (docs m)
                  = (λ d, if decide (has_id contact_id d)
                          then set_fields contact d else d) <$> docs m).
  { apply (insert_at_unique (has_id contact_id)); [done | done |].
    intros j y Hj Hy. by eapply has_id_unique. }
  eexists. rewrite update_contact_eq, Ho, Hconn, Henc, Hfind. cbn [andb].
  split_and!; [reflexivity | exact Hdocs |].
  cbn [docs with_docs]. fold (set_fields contact d). rewrite Hdocs.
  apply Forall_fmap, Forall_forall. intros y _. unfold compose.
  destruct (decide (has_id contact_id y)) as [Hy | Hy];
    [intros _; apply set_fields_holds | intros Hy'; by destruct Hy].
Qed.

End UpdateNamed.

Lemma update_sets_fields_of_named_witness :
  exists m',
    update_contact (D := python_encoder) "000000000000000000000001" bob two_contacts
    = (inr {[ "message" := VStr "Contact updated successfully" ]}, m')
    /\ docs m' = [stored ann no_contacts; <["_id" := VOid 1]> (Contact_dict bob)].
Proof.
  destruct (update_sets_fields_of_named (D := python_encoder)
      "000000000000000000000001" bob two_contacts)
    as (m' & Hupd & Hdocs & _).
  - apply unique_ids_two_contacts.
  - reflexivity.
  - vm_compute; reflexivity.
  - apply Exists_cons_tl, Exists_cons_hd. exists 1%N. split; vm_compute; reflexivity.
  - exists m'. split; [exact Hupd |]. rewrite Hdocs.
    vm_compute. reflexivity.
Defined.

Section DeleteNamed.
Context {D : Driver}.

(** When the path id names a stored document and the server is reachable,
    the delete succeeds and the collection is what it was without the
    documents of that id: one document fewer, the others in their order. *)
Theorem delete_removes_named (contact_id : string) (m : Mongo) :
  unique_ids m ->
  connected m = true ->
  Exists (has_id contact_id) (docs m) ->
  exists m',
    delete_contact contact_id m
    = (inr {[ "message" := VStr "Contact deleted successfully" ]}, m')
    /\ docs m' = filter (λ d, ~ has_id contact_id d) (docs m)
    /\ S (length (docs m')) = length (docs m).
Proof.
  intros [Hnd _] Hconn Hex.
  destruct (lookup_id_named _ _ Hex) as (o & i & d & Ho & Hfind & Hi & Hid).
  eexists. rewrite delete_contact_eq, Ho, Hconn, Hfind.
  split_and!; [reflexivity | |]; cbn [docs with_docs].
  - apply (delete_at_unique (has_id contact_id) _ i d); [done | done |].
    intros j y Hj Hy. by eapply has_id_unique.
  - rewrite length_delete by eauto.
    apply lookup_lt_Some in Hi. lia.
Qed.

End DeleteNamed.

Lemma delete_removes_named_witness :
  exists m',
    delete_contact (D := python_encoder) "000000000000000000000000" two_contacts
    = (inr {[ "message" := VStr "Contact deleted successfully" ]}, m')
    /\ docs m' = [stored ann one_contact].
Proof.
  destruct (delete_removes_named (D := python_encoder)
      "000000000000000000000000" two_contacts)
    as (m' & Hdel & Hdocs & _).
  - apply unique_ids_two_contacts.
  - reflexivity.
  - apply Exists_cons_hd. exists 0%N. split; vm_compute; reflexivity.
  - exists m'. split; [exact Hdel |]. rewrite Hdocs.
    vm_compute. reflexivity.
Defined.

(** ** What the list route sends *)

Section ListRoute.
Context {P : Pydantic} {D : Driver}.

(** When the server is reachable and every stored document holds the four
    fields of a contact, the list route answers 200 with these contacts'
    fields, one entry per document and in the order of the collection; the
    collection is not touched. *)
Theorem list_sends_every_contact (contacts : list Contact) (m : Mongo) :
  connected m = true ->
  Forall2 (λ d contact, holds contact d) (docs m) contacts ->
  app GET_contacts m
  = ({| status := 200; body := JSONArray (Contact_dict <$> contacts) |}, m).
Proof.
  intros Hconn Hall. cbn [app]. unfold respond.
  rewrite get_contacts_eq, Hconn.
  assert (List_Contact (docs m) = Some (JSONArray (Contact_dict <$> contacts)))
    as ->; [| done].
  unfold List_Contact. apply fmap_Some. eexists. split; [| reflexivity].
  apply mapM_Some. apply Forall2_fmap_r.
  eapply Forall2_impl; [exact Hall |].
  intros d contact Hd. cbn beta. by rewrite (Contact_validate_holds contact d Hd).
Qed.

(** One stored document that lacks a declared field, or has for it a value
    the annotation does not take, makes the whole listing fail: the list
    route answers with the server's plain 500, not with the handler's
    detail, although the handler returned. *)
Theorem list_fails_on_foreign_document (m : Mongo) :
  connected m = true ->
  Exists (λ d, exists k, k ∈ Contact_fields /\ field_ok k d = false) (docs m) ->
  get_contacts m = (inr (docs m), m)
  /\ app GET_contacts m
     = ({| status := 500; body := PlainText "Internal Server Error" |}, m).
Proof.
  intros Hconn Hbad.
  assert (Hget : get_contacts m = (inr (docs m), m))
    by (by rewrite get_contacts_eq, Hconn).
  split; [done |]. cbn [app]. unfold respond. rewrite Hget.
  assert (List_Contact (docs m) = None) as ->; [| done].
  unfold List_Contact. apply fmap_None, mapM_None_2.
  eapply Exists_impl; [exact Hbad |].
  intros d (k & Hk & Hd). cbn beta.
  by destruct (Contact_validate_fails d k Hk Hd) as (l & -> & _).
Qed.

End ListRoute.

Lemma list_sends_every_contact_witness :
  app (P := strict) (D := python_encoder) GET_contacts two_contacts
  = ({| status := 200; body := JSONArray [Contact_dict ann; Contact_dict ann] |},
     two_contacts).
Proof.
  apply (list_sends_every_contact (P := strict) (D := python_encoder)
      [ann; ann] two_contacts).
  - reflexivity.
  - repeat constructor; apply stored_holds.
Defined.

Lemma list_fails_on_foreign_document_witness :
  app (P := strict) (D := python_encoder) GET_contacts foreign_doc
  = ({| status := 500; body := PlainText "Internal Server Error" |}, foreign_doc).
Proof.
  apply (list_fails_on_foreign_document (P := strict) (D := python_encoder) foreign_doc).
  - reflexivity.
  - apply Exists_cons_tl, Exists_cons_hd. exists "email".
    split; [unfold Contact_fields; set_solver | vm_compute; reflexivity].
Defined.

(** ** Using the id a create answers with *)

Section CreatedId.
Context {D : Driver}.

Lemma created_id (m : Mongo) (s : string) :
  created m !! "id" = Some (VStr s) ->
  s = bson.to_str (next_oid m) /\ queried s = Some (next_oid m).
Proof.
  unfold created. rewrite lookup_insert_eq. intros [= <-].
  split; [done |]. apply queried_from_str, from_str_to_str, next_oid_lt.
Qed.

Lemma lookup_id_created (contact : Contact) (m : Mongo) :
  Some (VOid (next_oid m)) ∉ collection.ids (docs m) ->
  lookup_id (next_oid m) (with_docs (docs m ++ [stored contact m]) (tick m))
  = Some (length (docs m), stored contact m).
Proof.
  intros Hfresh. unfold lookup_id. cbn [docs with_docs].
  assert (Hlast : list_find (collection.matches {[ "_id" := VOid (next_oid m) ]})
                    [stored contact m] = Some (0%nat, stored contact m)).
  { apply list_find_Some. split_and!; [done | | intros j y _ Hj; lia].
    apply matches_id. unfold stored. apply lookup_insert_eq. }
  rewrite list_find_app_r.
  - by rewrite Hlast.
  - apply list_find_None, Forall_forall. intros d Hd Hm.
    apply matches_id in Hm. apply Hfresh. rewrite <- Hm.
    unfold collection.ids. apply list_elem_of_fmap.
    exists d. split; [reflexivity | exact Hd].
Qed.

(** The id a successful create answers with names the document it added and
    no document that was there before. *)
Theorem created_id_names_new_document (contact : Contact) (m m' : Mongo)
    (ret : dict) :
  create_contact contact m = (inr ret, m') ->
  exists s d,
    ret !! "id" = Some (VStr s)
    /\ docs m' = docs m ++ [d]
    /\ has_id s d
    /\ holds contact d
    /\ Forall (λ d0, ~ has_id s d0) (docs m).
Proof.
  intros (-> & -> & _ & Hfresh)%create_contact_inr.
  exists (bson.to_str (next_oid m)), (stored contact m).
  assert (Hs : queried (bson.to_str (next_oid m)) = Some (next_oid m))
    by apply queried_from_str, from_str_to_str, next_oid_lt.
  split_and!.
  - unfold created. apply lookup_insert_eq.
  - done.
  - exists (next_oid m). split; [done |]. unfold stored. apply lookup_insert_eq.
  - apply stored_holds.
  - apply Forall_forall. intros d0 Hd0 (o & Ho & Hid).
    assert (o = next_oid m) as -> by congruence.
    apply Hfresh. rewrite <- Hid. unfold collection.ids.
    apply list_elem_of_fmap. exists d0. split; [reflexivity | exact Hd0].
Qed.

End CreatedId.

Lemma created_id_names_new_document_witness :
  exists d,
    docs (snd (create_contact bob one_contact)) = docs one_contact ++ [d]
    /\ has_id (D := python_encoder) "000000000000000000000001" d
    /\ holds bob d
    /\ Forall (λ d0, ~ has_id (D := python_encoder)
        "000000000000000000000001" d0) (docs one_contact).
Proof.
  destruct (created_id_names_new_document (D := python_encoder) bob one_contact
              (snd (create_contact bob one_contact)) (created one_contact))
    as (s & d & Hs & Hd & Hid & Hh & Hold).
  - vm_compute; reflexivity.
  - assert (s = "000000000000000000000001") as ->.
    { vm_compute in Hs. by injection Hs as <-. }
    exists d. split_and!; [rewrite Hd; reflexivity | done | done | done].
Defined.

Section CreateDelete.
Context {D : Driver}.

(** Deleting with the id a create has just answered with succeeds and gives
    back the documents the collection had before the create. *)
Theorem create_then_delete (contact : Contact) (m m1 : Mongo) (ret : dict)
    (s : string) :
  create_contact contact m = (inr ret, m1) ->
  ret !! "id" = Some (VStr s) ->
  exists m2,
    delete_contact s m1
    = (inr {[ "message" := VStr "Contact deleted successfully" ]}, m2)
    /\ docs m2 = docs m.
Proof.
  intros (-> & -> & Hconn & Hfresh)%create_contact_inr [-> Hs]%created_id.
  eexists. rewrite delete_contact_eq, Hs. cbn [connected with_docs tick].
  rewrite Hconn, lookup_id_created by done.
  split; [reflexivity |]. cbn [docs with_docs].
  by rewrite delete_middle, app_nil_r.
Qed.

End CreateDelete.

Lemma create_then_delete_witness :
  exists m2,
    delete_contact (D := python_encoder)
        "000000000000000000000001" (snd (create_contact bob one_contact))
    = (inr {[ "message" := VStr "Contact deleted successfully" ]}, m2)
    /\ docs m2 = docs one_contact.
Proof.
  apply (create_then_delete (D := python_encoder) bob one_contact _ (created one_contact));
    vm_compute; reflexivity.
Defined.

Section CreateUpdate.
Context {D : Driver}.

Lemma set_fields_stored (contact contact' : Contact) (m : Mongo) :
  set_fields contact' (stored contact m) = stored contact' m.
Proof.
  unfold set_fields, stored. apply map_eq. intros k.
  destruct (decide (k = "_id")) as [-> | Hk].
  - by rewrite lookup_union_r, !lookup_insert_eq by apply Contact_dict_no_id.
  - rewrite lookup_union, !lookup_insert_ne, !Contact_dict_lookup by done.
    by repeat case_decide.
Qed.

(** Updating with the id a create has just answered with succeeds and
    replaces the four fields of the created document, which keeps its
    ["_id"] and its place at the end of the collection. *)
Theorem create_then_update (contact contact' : Contact) (m m1 : Mongo)
    (ret : dict) (s : string) :
  create_contact contact m = (inr ret, m1) ->
  ret !! "id" = Some (VStr s) ->
  collection.encodable (Contact_dict contact') = true ->
  exists m2,
    update_contact s contact' m1
    = (inr {[ "message" := VStr "Contact updated successfully" ]}, m2)
    /\ docs m2 = docs m ++ [<["_id" := VOid (next_oid m)]> (Contact_dict contact')].
Proof.
  intros (-> & -> & Hconn & Hfresh)%create_contact_inr [-> Hs]%created_id Henc.
  eexists. rewrite update_contact_eq, Hs. cbn [connected with_docs tick].
  rewrite Hconn, Henc, lookup_id_created by done. cbn [andb].
  split; [reflexivity |]. cbn [docs with_docs].
  fold (set_fields contact' (stored contact m)). rewrite set_fields_stored.
  replace (length (docs m)) with (length (docs m) + 0)%nat by lia.
  by rewrite insert_app_r.
Qed.

End CreateUpdate.

Lemma create_then_update_witness :
  exists m2,
    update_contact (D := python_encoder) "000000000000000000000001" bob two_contacts
    = (inr {[ "message" := VStr "Contact updated successfully" ]}, m2)
    /\ docs m2 = docs one_contact ++ [<["_id" := VOid 1]> (Contact_dict bob)].
Proof.
  apply (create_then_update (D := python_encoder)
      ann bob one_contact two_contacts (created one_contact));
    vm_compute; reflexivity.
Defined.

(** ** Repeating a request *)

Section UpdateTwice.
Context {D : Driver}.

(** An update that succeeded can be repeated: the same request succeeds
    again and leaves the store exactly as the first one left it. *)
Theorem update_twice (contact_id : string) (contact : Contact) (m m1 : Mongo)
    (ret : dict) :
  update_contact contact_id contact m = (inr ret, m1) ->
  update_contact contact_id contact m1 = (inr ret, m1).
Proof.
  rewrite !update_contact_eq.
  destruct (queried contact_id) as [o|]; [| done].
  destruct (connected m && collection.encodable (Contact_dict contact)) eqn:Hok;
    [| done].
  destruct (lookup_id o m) as [[i d]|] eqn:Hfind; [| done].
  intros [= <- <-]. cbn [connected with_docs]. rewrite Hok.
  apply lookup_id_Some in Hfind as Hfound. destruct Hfound as [Hi Hid].
  assert (Hagain : lookup_id o (with_docs (<[i := Contact_dict contact ∪ d]> (docs m)) m)
                   = Some (i, Contact_dict contact ∪ d)).
  { unfold lookup_id in *. cbn [docs with_docs].
    apply list_find_Some in Hfind as (_ & _ & Hbefore).
    apply list_find_Some. split_and!.
    - apply list_lookup_insert_eq. by eapply lookup_lt_Some.
    - apply matches_id. by rewrite lookup_union_r by apply Contact_dict_no_id.
    - intros j y Hj Hlt. rewrite list_lookup_insert_ne in Hj by lia.
      by eapply Hbefore. }
  rewrite Hagain. cbn [docs with_docs].
  rewrite list_insert_insert_eq.
  by rewrite (assoc_L (∪)), (idemp_L (∪)).
Qed.

End UpdateTwice.

Lemma update_twice_witness :
  exists m1,
    update_contact (D := python_encoder) "000000000000000000000001" bob two_contacts
    = (inr {[ "message" := VStr "Contact updated successfully" ]}, m1)
    /\ update_contact (D := python_encoder) "000000000000000000000001" bob m1
       = (inr {[ "message" := VStr "Contact updated successfully" ]}, m1).
Proof.
  eexists. split; [vm_compute; reflexivity |].
  apply (update_twice (D := python_encoder) "000000000000000000000001" bob two_contacts).
  vm_compute; reflexivity.
Defined.

Section DeleteTwice.
Context {D : Driver}.

(** A delete that succeeded cannot be repeated: in a collection with unique
    identifiers the same request then finds nothing, answers with the 500
    of the delete handler and changes nothing. *)
Theorem delete_twice (contact_id : string) (m m1 : Mongo) (ret : dict) :
  unique_ids m ->
  delete_contact contact_id m = (inr ret, m1) ->
  delete_contact contact_id m1
  = (inl (HTTPException 500 "Error deleting contact"), m1).
Proof.
  intros [Hnd _]. rewrite !delete_contact_eq.
  destruct (queried contact_id) as [o|]; [| done].
  destruct (connected m) eqn:Hconn; [| done].
  destruct (lookup_id o m) as [[i d]|] eqn:Hfind; [| done].
  intros [= <- <-]. cbn [connected with_docs]. rewrite Hconn.
  apply lookup_id_Some in Hfind as [Hi Hid].
  rewrite lookup_id_None; [done |].
  cbn [docs with_docs]. intros d' Hd' Hid'.
  apply (delete_removes_id _ _ _ _ Hnd Hi Hd'). congruence.
Qed.

End DeleteTwice.

Lemma delete_twice_witness :
  exists m1,
    delete_contact (D := python_encoder) "000000000000000000000000" two_contacts
    = (inr {[ "message" := VStr "Contact deleted successfully" ]}, m1)
    /\ delete_contact (D := python_encoder) "000000000000000000000000" m1
       = (inl (HTTPException 500 "Error deleting contact"), m1).
Proof.
  eexists. split; [vm_compute; reflexivity |].
  eapply (delete_twice (D := python_encoder) "000000000000000000000000" two_contacts).
  - apply unique_ids_two_contacts.
  - vm_compute; reflexivity.
Defined.

(** ** A contact and its dict *)

Section RoundTrip.
Context {P : Pydantic} {D : Driver}.

(** [contact.dict()] reads back as the contact under every policy, with or
    without the ["_id"] the store adds; so a payload that validates is
    stored as a document that validates to the same contact. *)
Theorem dict_validates_to_contact (contact : Contact) (m : Mongo) :
  Contact_validate (Contact_dict contact) = inr contact
  /\ Contact_validate (<["_id" := VOid (next_oid m)]> (Contact_dict contact))
     = inr contact.
Proof.
  split; apply Contact_validate_holds; [| apply stored_holds].
  unfold holds, collection.matches. reflexivity.
Qed.

End RoundTrip.

(** ** Start-up *)

Section StartupFacts.
Context {client : Type} (MongoClient : string -> string + client).

Lemma startup_uri (dotenv environ : gmap string string) :
  load_dotenv dotenv environ !! "MONGO_URI"
  = match environ !! "MONGO_URI" with
    | Some uri => Some uri
    | None => dotenv !! "MONGO_URI"
    end.
Proof.
  unfold load_dotenv. rewrite lookup_union.
  by destruct (environ !! "MONGO_URI"), (dotenv !! "MONGO_URI").
Qed.

(** The module refuses to start with [ValueError] exactly when [MONGO_URI]
    is empty in the environment, or is absent from the environment and
    absent or empty in the .env file: a variable of the environment, even an
    empty one, hides the one of the file.  In every other case
    [MongoClient] is given the uri, and what it does decides: its client is
    the result, its failure becomes a [ConnectionError]. *)
Theorem startup_needs_mongo_uri (dotenv environ : gmap string string) :
  (mongo_uri_unset dotenv environ <->
   startup MongoClient dotenv environ
   = inl (ValueError "MongoDB URI is not set in the .env file"))
  /\ (~ mongo_uri_unset dotenv environ ->
      exists uri,
        load_dotenv dotenv environ !! "MONGO_URI" = Some uri /\ uri <> ""
        /\ startup MongoClient dotenv environ
           = match MongoClient uri with
             | inr c => inr c
             | inl e => inl (ConnectionError ("Could not connect to MongoDB: " +:+ e))
             end).
Proof.
  unfold mongo_uri_unset, startup. rewrite startup_uri.
  destruct (environ !! "MONGO_URI") as [uri|] eqn:He;
    [| destruct (dotenv !! "MONGO_URI") as [uri|] eqn:Hd]; cbn [not_ default].
  - case_bool_decide as Hu.
    + subst uri. split.
      * split; [reflexivity | intros _; left; reflexivity].
      * intros Hno. destruct Hno. left. reflexivity.
    + split.
      * split.
        -- intros [Heq | [Heq _]]; [| discriminate Heq].
           injection Heq as Heq. contradiction.
        -- unfold id. destruct (MongoClient uri); discriminate.
      * intros _. exists uri. split_and!; [reflexivity | exact Hu | reflexivity].
  - case_bool_decide as Hu.
    + subst uri. split.
      * split; [reflexivity |].
        intros _. right. split; [reflexivity | right; reflexivity].
      * intros Hno. destruct Hno. right. split; [reflexivity | right; reflexivity].
    + split.
      * split.
        -- intros [Heq | [_ [Heq | Heq]]]; try discriminate Heq.
           injection Heq as Heq. contradiction.
        -- unfold id. destruct (MongoClient uri); discriminate.
      * intros _. exists uri. split_and!; [reflexivity | exact Hu | reflexivity].
  - split.
    + split; [reflexivity |].
      intros _. right. split; [reflexivity | left; reflexivity].
    + intros Hno. destruct Hno. right. split; [reflexivity | left; reflexivity].
Qed.

End StartupFacts.

Lemma startup_needs_mongo_uri_witness :
  startup (client := nat) (λ uri, inr (String.length uri))
    {[ "MONGO_URI" := "mongodb://file" ]} {[ "MONGO_URI" := "" ]}
  = inl (ValueError "MongoDB URI is not set in the .env file")
  /\ startup (client := nat) (λ uri, inr (String.length uri))
       {[ "MONGO_URI" := "mongodb://file" ]} ∅
     = inr 14%nat.
Proof.
  split.
  - apply (startup_needs_mongo_uri (client := nat) (λ uri, inr (String.length uri))
             {[ "MONGO_URI" := "mongodb://file" ]} {[ "MONGO_URI" := "" ]}).
    left. vm_compute; reflexivity.
  - destruct (startup_needs_mongo_uri (client := nat)
                (λ uri, inr (String.length uri))
                {[ "MONGO_URI" := "mongodb://file" ]} ∅) as [_ Hrun].
    destruct Hrun as (uri & Huri & _ & ->).
    + intros [H | [_ [H | H]]]; vm_compute in H; discriminate.
    + vm_compute in Huri. by injection Huri as <-.
Defined.
